(** * NDVI reduction of the vegetation-detector backend

    A shallow embedding of the two NDVI reducers of the repository:
    the body of [calculateNdvi] (services/GeoTIFFService.js) and the
    inline body of the [router.get("/")] handler of the legacy NDVI
    route.  JavaScript numbers are IEEE 754 binary64 values, so they are
    modelled by Rocq's primitive [float]s, whose operations are the very
    same binary64 operations. *)

From Stdlib Require Import ZArith List Lia Bool String Ascii.
From Stdlib Require Import DecimalString.
From Stdlib Require Import Floats.
From Stdlib Require Import Reals Lra.
Import ListNotations.

Open Scope Z_scope.

(** ** The fragment of JavaScript the reducers use *)

Module JS.

(** A typed array (what [readRasters()] yields for one band): a
    sequence of numbers.  Reading inside the bounds gives the stored
    number, reading outside gives [undefined], here [None]. *)
Definition TypedArray := list float.

Definition length (a : TypedArray) : Z := Z.of_nat (List.length a).

Definition get (a : TypedArray) (i : nat) : option float := nth_error a i.

(** [ToNumber]: the arithmetic operators coerce [undefined] to NaN. *)
Definition ToNumber (v : option float) : float :=
  match v with
  | Some x => x
  | None => nan
  end.

(** The binary operators of the source on two values. *)
Definition plus (a b : option float) : float :=
  (ToNumber a + ToNumber b)%float.

Definition minus (a b : option float) : float :=
  (ToNumber a - ToNumber b)%float.

(** [x !== y] on numbers: IEEE inequality, so NaN differs from
    everything and the two zeros are equal. *)
Definition strict_neq (x y : float) : bool := negb (x =? y)%float.

(** [Math.min] on the two integers the loop bound compares. *)
Definition Math_min (a b : Z) : Z := Z.min a b.

(** [arr.push(v)] appends at the end. *)
Definition push (arr : list float) (v : float) : list float := arr ++ [v].

(** [arr.slice(0, k)] is the prefix of at most [k] elements. *)
Definition slice0 (arr : list float) (k : nat) : list float := firstn k arr.

(** [SameValueZero], the language's "same number" test: equal as
    numbers, so the two zeros are the same, and NaN is the same as NaN. *)
Definition SameValueZero (x y : float) : bool :=
  (x =? y)%float || (is_nan x && is_nan y).

(** *** [Number.prototype.toFixed]

    The text of a number with [f] digits after the point.  A NaN or
    an infinity is rendered by name.  Otherwise the sign is split
    off and the magnitude [m * 2^e] is scaled by [10^f] and rounded
    to the nearest integer [n], the larger one on a tie.  From
    [10^21] on the language falls back to the shortest round-trip
    notation of the number, which is kept symbolic here. *)
Inductive text :=
| Text (s : string)
| Shortest (x : float).

(** The integer closest to [m * 2^e * 10^f], ties upwards. *)
Definition scaled_round (m : positive) (e : Z) (f : nat) : Z :=
  let p := Z.pos m * 10 ^ Z.of_nat f in
  if 0 <=? e then p * 2 ^ e
  else (2 * p + 2 ^ (- e)) / 2 ^ (1 - e).

(** [m * 2^e >= 10^21] *)
Definition at_least_1e21 (m : positive) (e : Z) : bool :=
  if 0 <=? e then 10 ^ 21 <=? Z.pos m * 2 ^ e
  else 10 ^ 21 * 2 ^ (- e) <=? Z.pos m.

Definition digits (n : Z) : string :=
  NilZero.string_of_uint (N.to_uint (Z.to_N n)).

Fixpoint zeros (k : nat) : string :=
  match k with
  | O => EmptyString
  | S j => String "0"%char (zeros j)
  end.

(** Insert the decimal point [f] digits from the right, padding the
    digit string with zeros on the left up to [f + 1] digits. *)
Definition with_point (ds : string) (f : nat) : string :=
  match f with
  | O => ds
  | S _ =>
      let k := String.length ds in
      let ds' := if Nat.leb k f then (zeros (f + 1 - k) ++ ds)%string else ds in
      let k' := String.length ds' in
      (substring 0 (k' - f) ds' ++ "." ++ substring (k' - f) f ds')%string
  end.

Definition toFixed (x : float) (f : nat) : text :=
  match Prim2SF x with
  | S754_nan => Text "NaN"
  | S754_infinity false => Text "Infinity"
  | S754_infinity true => Text "-Infinity"
  | S754_zero _ => Text (with_point (digits 0) f)
  | S754_finite s m e =>
      if at_least_1e21 m e then Shortest x
      else
        let body := with_point (digits (scaled_round m e f)) f in
        Text (if s then "-" ++ body else body)%string
  end.

End JS.

(** ** Data of the reducers *)

(** A decoded GeoTIFF image, as far as the reducers look at it: the
    first raster band and the declared dimensions. *)
Record Image := {
  readRasters0 : JS.TypedArray;
  getWidth : Z;
  getHeight : Z
}.

(** The object both reducers build. *)
Record NdviResult := {
  meanNdvi : JS.text;
  sample : list float;
  width : Z;
  height : Z
}.

(** The three variables the loop updates: [ndvi], [sum] and [count].
    [count] only ever holds a small natural number (it is incremented
    at most [maxPixels] times), so it is kept as an integer and turned
    into a number where it is divided by. *)
Record Acc := {
  ndvi : list float;
  sum : float;
  count : Z
}.

Definition number_of_count (c : Z) : float := of_uint63 (Uint63.of_Z c).

(** What the HTTP layer sends: [res.json(obj)] (status 200) or
    [res.status(500).json({ error })]. *)
Inductive response :=
| Json200 (body : NdviResult)
| Json500 (error : string).

(** ** services/GeoTIFFService.js: [calculateNdvi] *)

Module Service.

Definition maxPixels : Z := 1000000.

(** The loop condition's right-hand side,
    [Math.min(redRaster.length, maxPixels)]. *)
Definition bound (redRaster : JS.TypedArray) : Z :=
  JS.Math_min (JS.length redRaster) maxPixels.

(** One iteration of the [for] loop, at index [i]. *)
Definition body (redRaster nirRaster : JS.TypedArray) (st : Acc) (i : nat) : Acc :=
  let red := JS.get redRaster i in
  let nir := JS.get nirRaster i in
  if JS.strict_neq (JS.plus nir red) 0 then
    let val := (JS.minus nir red / JS.plus nir red)%float in
    {| ndvi := JS.push (ndvi st) val;
       sum := (sum st + val)%float;
       count := count st + 1 |}
  else
    {| ndvi := JS.push (ndvi st) 0; sum := sum st; count := count st |}.

Definition init : Acc := {| ndvi := []; sum := 0; count := 0 |}.

(** The variables after the first [k] iterations:
    [i = 0, 1, ..., k - 1]. *)
Definition loop (redRaster nirRaster : JS.TypedArray) (k : nat) : Acc :=
  fold_left (body redRaster nirRaster) (seq 0 k) init.

(** The whole [for (let i = 0; i < Math.min(...); i++)] loop. *)
Definition reduce (redRaster nirRaster : JS.TypedArray) : Acc :=
  loop redRaster nirRaster (Z.to_nat (bound redRaster)).

Definition calculateNdvi (redImage nirImage : Image) : NdviResult :=
  let redRaster := readRasters0 redImage in
  let nirRaster := readRasters0 nirImage in
  let st := reduce redRaster nirRaster in
  let meanNdvi := JS.toFixed (sum st / number_of_count (count st)) 4 in
  {| meanNdvi := meanNdvi;
     sample := JS.slice0 (ndvi st) 100;
     width := getWidth redImage;
     height := getHeight redImage |}.

End Service.

(** ** controllers/NDVIController.js: [getNdviData]

    The controller awaits [calculateNdvi] and sends its result; a
    failure to fetch or decode the two files ([None] here) is caught
    and answered with status 500. *)
Definition getNdviData (files : option (Image * Image)) : response :=
  match files with
  | Some (redImage, nirImage) => Json200 (Service.calculateNdvi redImage nirImage)
  | None => Json500 "NDVI computation failed"
  end.

(** ** The legacy NDVI route: the [router.get("/")] handler *)

Module Route.

Definition maxPixels : Z := 1000000. (* 1 million pixels max *)

Definition body (redRaster nirRaster : JS.TypedArray) (st : Acc) (i : nat) : Acc :=
  let red := JS.get redRaster i in
  let nir := JS.get nirRaster i in
  if JS.strict_neq (JS.plus nir red) 0 then
    let val := (JS.minus nir red / JS.plus nir red)%float in
    {| ndvi := JS.push (ndvi st) val;
       sum := (sum st + val)%float;
       count := count st + 1 |}
  else
    {| ndvi := JS.push (ndvi st) 0; sum := sum st; count := count st |}.

(** Loop through every pixel and calculate NDVI. *)
Definition reduce (redRaster nirRaster : JS.TypedArray) : Acc :=
  fold_left (body redRaster nirRaster)
    (seq 0 (Z.to_nat (JS.Math_min (JS.length redRaster) maxPixels)))
    {| ndvi := []; sum := 0; count := 0 |}.

Definition handler (files : option (Image * Image)) : response :=
  match files with
  | Some (redImage, nirImage) =>
      let redRaster := readRasters0 redImage in
      let nirRaster := readRasters0 nirImage in
      let st := reduce redRaster nirRaster in
      (* Calculate mean NDVI *)
      let meanNdvi := JS.toFixed (sum st / number_of_count (count st)) 4 in
      Json200 {| meanNdvi := meanNdvi;
                 sample := JS.slice0 (ndvi st) 100;
                 width := getWidth redImage;
                 height := getHeight redImage |}
  | None => Json500 "NDVI computation failed"
  end.

End Route.

(** The number of pixels a reduction processed: one entry of the full
    per-pixel output per iteration. *)
Definition totalPixelsProcessed (st : Acc) : Z := JS.length (ndvi st).

Definition img (raster : JS.TypedArray) (w h : Z) : Image :=
  {| readRasters0 := raster; getWidth := w; getHeight := h |}.

(** ** Binary64 values, for the proofs about the arithmetic

    [Prim2SF] maps a number to its IEEE 754 description (sign, mantissa,
    exponent); the library states each primitive operation through it. *)

Definition SFis_zero (x : spec_float) : bool :=
  match x with
  | S754_zero _ => true
  | _ => false
  end.

(** The same number: identical, or two zeros of whatever signs. *)
Definition SFsame (x y : spec_float) : Prop :=
  x = y \/ (SFis_zero x = true /\ SFis_zero y = true).

Definition same_number (x y : float) : Prop := SFsame (Prim2SF x) (Prim2SF y).

(** The real number [2^e], and the real number [m * 2^e] a mantissa and
    an exponent stand for. *)
Definition bpow (e : Z) : R := powerRZ 2 e.

Definition F2R (m e : Z) : R := (IZR m * bpow e)%R.

(** Something was lost in the bits shifted out. *)
Definition inexact (mrs : shr_record) : bool := shr_r mrs || shr_s mrs.

(** [k] right shifts: the mantissa is the floor of the quotient by
    [2^k], and the flags are raised only if something was lost. *)
Definition shifted (k : Z) (x y : shr_record) : Prop :=
  0 <= shr_m y
  /\ shr_m y * 2 ^ k <= shr_m x < (shr_m y + 1) * 2 ^ k
  /\ (inexact y = true -> inexact x = true \/ shr_m y * 2 ^ k < shr_m x).

(** The magnitude of a binary64 description lies below [F] / above [F]. *)
Definition SFbelow (F : R) (x : spec_float) : Prop :=
  match x with
  | S754_zero _ => True
  | S754_finite _ m e => (F2R (Z.pos m) e <= F)%R
  | _ => False
  end.

Definition SFabove (F : R) (x : spec_float) : Prop :=
  match x with
  | S754_infinity _ => True
  | S754_finite _ m e => (F <= F2R (Z.pos m) e)%R
  | _ => False
  end.



Open Scope Z_scope.

(** A finite number that is not negative (a zero of either sign counts). *)
Definition SFnonneg_finite (prec emax : Z) (x : spec_float) : Prop :=
  match x with
  | S754_zero _ => True
  | S754_finite false m e => SpecFloat.bounded prec emax m e = true
  | _ => False
  end.


(** A band of two million pixels, all of the same value. *)
Definition flat_band (v : float) : JS.TypedArray := repeat v (Z.to_nat 2000000).

(** * The rest of the backend

    The callers of the reducers and the services beside them: the
    coordinate utilities, the extended controller with its chart, the
    suggestion engine and its controller, the satellite service and the
    soil type of the area service. *)

Set Warnings "-inexact-float".

(** ** The reducers, pixel by pixel *)

(** The guard of iteration [i]: [(nir + red) !== 0]. *)
Definition valid_pixel (redRaster nirRaster : JS.TypedArray) (i : nat) : bool :=
  JS.strict_neq (JS.plus (JS.get nirRaster i) (JS.get redRaster i)) 0.

(** The value iteration [i] pushes to [ndvi]. *)
Definition pixel_value (redRaster nirRaster : JS.TypedArray) (i : nat) : float :=
  if valid_pixel redRaster nirRaster i
  then (JS.minus (JS.get nirRaster i) (JS.get redRaster i)
        / JS.plus (JS.get nirRaster i) (JS.get redRaster i))%float
  else 0%float.

(** The number of iterations of the loop. *)
Definition iterations (redRaster : JS.TypedArray) : nat :=
  Z.to_nat (Service.bound redRaster).

(** A number that is finite and not negative: [0 <= x && x < Infinity]. *)
Definition finite_nonneg (x : float) : bool :=
  (0 <=? x)%float && (x <? infinity)%float.

(** The text has a decimal point. *)
Fixpoint has_point (s : string) : bool :=
  match s with
  | EmptyString => false
  | String c s' => if Ascii.eqb c "."%char then true else has_point s'
  end.

(** ** What the JavaScript runtime supplies to the callers

    The callers of the reducer use built-in functions whose results
    are not decided by the source: the parser of numbers, the cosine,
    the random generator and the clock.  They are taken as given. *)
Record Runtime := {
  (** [parseFloat] on a string *)
  parseFloat_string : string -> float;
  (** [Math.cos] *)
  Math_cos : float -> float;
  (** the value of the [k]-th call of [Math.random()] *)
  Math_random : nat -> float;
  (** [getMonth()] (0 to 11) and [getFullYear()] of the [new Date()] of
      [generateChartData] *)
  getMonth : nat;
  getFullYear : Z;
  (** [new Date().toISOString()] *)
  toISOString : string
}.

Module Value.

(** A value of the language, as far as the callers meet them. *)
Inductive value :=
| Undefined
| Null
| Number (x : float)
| Str (s : string).

(** A query parameter is absent ([undefined]) or a string. *)
Definition of_param (p : option string) : value :=
  match p with
  | Some s => Str s
  | None => Undefined
  end.

(** [ToBoolean] on a query parameter: an absent or empty one is falsy. *)
Definition truthy (p : option string) : bool :=
  match p with
  | Some s => negb (String.eqb s "")
  | None => false
  end.

(** [parseFloat] converts its argument to a string first; the absent
    parameter reads ["undefined"], which is no number. *)
Definition parseFloat (rt : Runtime) (p : option string) : float :=
  match p with
  | Some s => parseFloat_string rt s
  | None => nan
  end.

(** [parseFloat] on the text [toFixed] made.  The shortest round-trip
    notation of a number reads back as that number. *)
Definition parseFloat_text (rt : Runtime) (t : JS.text) : float :=
  match t with
  | JS.Text s => parseFloat_string rt s
  | JS.Shortest x => x
  end.

End Value.

(** ** utils/coordinateUtils.js *)

Module Utils.

Definition validateCoordinates (latitude longitude : Value.value) : bool :=
  match latitude, longitude with
  | Value.Number lat, Value.Number lon =>
      (-90 <=? lat)%float && (lat <=? 90)%float
      && (-180 <=? lon)%float && (lon <=? 180)%float
  | _, _ => false
  end.

Definition Math_PI : float := 3.141592653589793%float.

Record BoundingBox := {
  north : float;
  south : float;
  east : float;
  west : float
}.

Definition generateBoundingBox (rt : Runtime) (latitude longitude radiusKm : float)
  : BoundingBox :=
  let latDelta := (radiusKm / 111.32)%float in (* Approximate km per degree latitude *)
  let lonDelta :=
    (radiusKm / (111.32 * Math_cos rt (latitude * Math_PI / 180)))%float in
  {| north := (latitude + latDelta)%float;
     south := (latitude - latDelta)%float;
     east := (longitude + lonDelta)%float;
     west := (longitude - lonDelta)%float |}.

End Utils.

(** ** controllers/NDVIController.js, the extended [getNdviData] *)

Module Controller.

Definition months : list string :=
  ["Jan"; "Feb"; "Mar"; "Apr"; "May"; "Jun";
   "Jul"; "Aug"; "Sep"; "Oct"; "Nov"; "Dec"]%string.

(** An element of [historicalData].  The mock elements have no
    [isCurrent] property; a reader of it finds a falsy value, [false]
    here. *)
Record Entry := {
  month : option string;
  ndvi : float;
  year : Z;
  isCurrent : bool
}.

(** The one element of [datasets]. *)
Record Dataset := {
  label : string;
  data : list float;
  borderColor : string;
  backgroundColor : string;
  tension : float
}.

Record ChartData := {
  labels : list (option string);
  datasets : list Dataset;
  currentValue : float;
  trend : string;
  averageValue : JS.text
}.

(** One iteration of [for (let i = 11; i >= 0; i--)]; it makes the
    [(11 - i)]-th call of [Math.random()].  [months[monthIndex]] is
    [undefined] ([None]) outside the array. *)
Definition mock_entry (rt : Runtime) (i : Z) : Entry :=
  let currentMonth := Z.of_nat (getMonth rt) in
  let monthIndex := (currentMonth - i + 12) mod 12 in
  let monthName := nth_error months (Z.to_nat monthIndex) in
  let ndviValue :=
    if (5 <=? monthIndex) && (monthIndex <=? 9) (* Monsoon and post-monsoon *)
    then JS.toFixed (Math_random rt (Z.to_nat (11 - i)) * 0.3 + 0.4)%float 3
    else JS.toFixed (Math_random rt (Z.to_nat (11 - i)) * 0.2 + 0.2)%float 3 in
  {| month := monthName;
     ndvi := Value.parseFloat_text rt ndviValue;
     year := if currentMonth <? monthIndex
             then getFullYear rt - 1 else getFullYear rt;
     isCurrent := false |}.

(** [historicalData] after the loop and after the assignment to its
    last element, [historicalData[historicalData.length - 1] = ...]. *)
Definition historicalData (rt : Runtime) (currentNdvi : JS.text) : list Entry :=
  let pushed := map (mock_entry rt) [11; 10; 9; 8; 7; 6; 5; 4; 3; 2; 1; 0] in
  firstn (List.length pushed - 1) pushed
  ++ [{| month := nth_error months (getMonth rt);
         ndvi := Value.parseFloat_text rt currentNdvi;
         year := getFullYear rt;
         isCurrent := true |}].

(** [historicalData[k].ndvi]; the list has twelve elements, so the two
    indices read are always there. *)
Definition entry_ndvi (h : list Entry) (k : nat) : float :=
  match nth_error h k with
  | Some d => ndvi d
  | None => nan
  end.

Definition generateChartData (rt : Runtime) (currentNdvi : JS.text) : ChartData :=
  let h := historicalData rt currentNdvi in
  {| labels := map month h;
     datasets :=
       [{| label := "NDVI Values";
           data := map ndvi h;
           borderColor := "#4CAF50";
           backgroundColor := "rgba(76, 175, 80, 0.1)";
           tension := 0.4 |}];
     currentValue := Value.parseFloat_text rt currentNdvi;
     trend := if (entry_ndvi h (List.length h - 2) <? entry_ndvi h (List.length h - 1))%float
              then "increasing" else "decreasing";
     averageValue :=
       JS.toFixed (fold_left (fun sum d => (sum + ndvi d)%float) h 0%float
                   / number_of_count (Z.of_nat (List.length h)))%float 3 |}.

Record Query := {
  latitude : option string;
  longitude : option string;
  area : option string
}.

Record Coordinates := {
  c_latitude : float;
  c_longitude : float;
  boundingBox : Utils.BoundingBox
}.

(** The enhanced response: the fields of the reducer's result (the
    spread [...ndviResult]) and four more. *)
Record Enhanced := {
  ndviResult : NdviResult;
  chartData : ChartData;
  areaInfo : option string;
  coordinates : option Coordinates;
  timestamp : string
}.

Inductive answer :=
| Status200 (body : Enhanced)
| Status400 (error : string)
| Status500 (error details : string).

(** The outcome of fetching and decoding the two files, which
    [calculateNdvi] awaits first: the two images, or the message of the
    exception thrown. *)
Inductive fetched :=
| Fetched (redImage nirImage : Image)
| Failed (message : string).

Definition getNdviData (rt : Runtime) (query : Query) (files : fetched) : answer :=
  let latitude := latitude query in
  let longitude := longitude query in
  let area := area query in
  (* If coordinates provided, validate them *)
  if Value.truthy latitude && Value.truthy longitude
     && negb (Utils.validateCoordinates
                (Value.Number (Value.parseFloat rt latitude))
                (Value.Number (Value.parseFloat rt longitude)))
  then Status400 "Invalid coordinates provided"
  else
    match files with
    | Failed message => Status500 "NDVI computation failed" message
    | Fetched redImage nirImage =>
        let ndviResult := Service.calculateNdvi redImage nirImage in
        Status200
          {| ndviResult := ndviResult;
             chartData := generateChartData rt (meanNdvi ndviResult);
             areaInfo := if Value.truthy area then area else None;
             coordinates :=
               if Value.truthy latitude && Value.truthy longitude
               then Some {| c_latitude := Value.parseFloat rt latitude;
                            c_longitude := Value.parseFloat rt longitude;
                            boundingBox :=
                              Utils.generateBoundingBox rt
                                (Value.parseFloat rt latitude)
                                (Value.parseFloat rt longitude) 1 |}
               else None;
             timestamp := toISOString rt |}
    end.

End Controller.

(** A runtime to evaluate the callers on: a parser that knows a few
    numerals, a constant cosine and random generator, and a fixed date. *)
Definition sample_runtime : Runtime :=
  {| parseFloat_string := fun s =>
       if String.eqb s "28.5" then 28.5%float
       else if String.eqb s "77.25" then 77.25%float
       else if String.eqb s "0.5000" then 0.5%float
       else if String.eqb s "0.625" then 0.625%float
       else if String.eqb s "0.5" then 0.5%float
       else if String.eqb s "0" then 0%float
       else nan;
     Math_cos := fun _ => 0.875%float;
     Math_random := fun _ => 0.75%float;
     getMonth := 2;
     getFullYear := 2025;
     toISOString := "2025-03-01T00:00:00.000Z" |}.

(** The sign of a binary64 description is [s], nothing said of a NaN. *)
Definition SFsigned (s : bool) (x : spec_float) : Prop :=
  match x with
  | S754_zero s' | S754_infinity s' | S754_finite s' _ _ => s' = s
  | S754_nan => False
  end.

(** A number that is not NaN and not negative: [0 <= x]. *)
Definition SFnonneg (prec emax : Z) (x : spec_float) : Prop :=
  match x with
  | S754_zero _ => True
  | S754_infinity false => True
  | S754_finite false m e => SpecFloat.bounded prec emax m e = true
  | _ => False
  end.

(** ** services/suggestionEngine.js *)

Module Engine.

Record Health := {
  status : string;
  percentage : Z;
  description : string;
  ndviValue : float
}.

Definition analyzeVegetationHealth (ndvi : float) : Health :=
  if (0.6 <=? ndvi)%float then
    {| status := "Excellent"; percentage := 90;
       description := "High vegetation density, optimal growing conditions";
       ndviValue := ndvi |}
  else if (0.4 <=? ndvi)%float then
    {| status := "Good"; percentage := 75;
       description := "Healthy vegetation, good growing conditions";
       ndviValue := ndvi |}
  else if (0.2 <=? ndvi)%float then
    {| status := "Moderate"; percentage := 50;
       description := "Moderate vegetation, may need attention";
       ndviValue := ndvi |}
  else if (0.1 <=? ndvi)%float then
    {| status := "Poor"; percentage := 25;
       description := "Low vegetation density, intervention needed";
       ndviValue := ndvi |}
  else
    {| status := "Critical"; percentage := 10;
       description := "Very low vegetation, immediate action required";
       ndviValue := ndvi |}.

(** [!historicalNdvi]: [null], and the numbers 0, -0 and NaN, are falsy. *)
Definition falsy (historicalNdvi : option float) : bool :=
  match historicalNdvi with
  | None => true
  | Some h => (h =? 0)%float || is_nan h
  end.

(** The result of [compareWithHistorical].  The template string of
    [change] is kept as the list of its pieces, in order; the fields
    the first [return] does not set are [None]. *)
Record Comparison := {
  change : list JS.text;
  percentageChange : float + JS.text;
  trend : string;
  c_description : option string;
  currentValue : option float;
  historicalValue : option float
}.

Definition compareWithHistorical (currentNdvi : float) (historicalNdvi : option float)
  : Comparison :=
  if falsy historicalNdvi then
    {| change := [JS.Text "No historical data available"];
       percentageChange := inl 0%float;
       trend := "neutral";
       c_description := None;
       currentValue := None;
       historicalValue := None |}
  else
    let h := JS.ToNumber historicalNdvi in
    let percentageChange := ((currentNdvi - h) / h * 100)%float in
    let change :=
      [JS.Text (if (0 <? percentageChange)%float then "+" else "");
       JS.toFixed percentageChange 1; JS.Text "%"] in
    if (15 <? percentageChange)%float then
      {| change := change; percentageChange := inr (JS.toFixed percentageChange 1);
         trend := "improving";
         c_description := Some "Significant improvement in vegetation health"%string;
         currentValue := Some currentNdvi; historicalValue := historicalNdvi |}
    else if (5 <? percentageChange)%float then
      {| change := change; percentageChange := inr (JS.toFixed percentageChange 1);
         trend := "slightly_improving";
         c_description := Some "Moderate improvement in vegetation health"%string;
         currentValue := Some currentNdvi; historicalValue := historicalNdvi |}
    else if (-5 <? percentageChange)%float then
      {| change := change; percentageChange := inr (JS.toFixed percentageChange 1);
         trend := "stable";
         c_description := Some "Vegetation health is stable"%string;
         currentValue := Some currentNdvi; historicalValue := historicalNdvi |}
    else if (-15 <? percentageChange)%float then
      {| change := change; percentageChange := inr (JS.toFixed percentageChange 1);
         trend := "declining";
         c_description := Some "Moderate decline in vegetation health"%string;
         currentValue := Some currentNdvi; historicalValue := historicalNdvi |}
    else
      {| change := change; percentageChange := inr (JS.toFixed percentageChange 1);
         trend := "critical_decline";
         c_description :=
           Some "Significant decline in vegetation health - immediate attention needed"%string;
         currentValue := Some currentNdvi; historicalValue := historicalNdvi |}.

Record Recommendation := {
  crop : string;
  confidence : string;
  reason : string;
  expectedYield : string
}.

Definition getCropRecommendations (ndvi : float) (season : string)
  : list Recommendation :=
  if (0.5 <=? ndvi)%float then
    (* High vegetation density - suitable for high-yield crops *)
    [{| crop := "Rice"; confidence := "High";
        reason := "Excellent soil moisture and vegetation density";
        expectedYield := "High" |};
     {| crop := "Wheat"; confidence := "High";
        reason := "Optimal growing conditions";
        expectedYield := "High" |}]
  else if (0.3 <=? ndvi)%float then
    (* Moderate vegetation - suitable for drought-resistant crops *)
    [{| crop := "Millet"; confidence := "Medium";
        reason := "Moderate vegetation, drought-resistant crop recommended";
        expectedYield := "Medium" |};
     {| crop := "Pulses"; confidence := "Medium";
        reason := "Good for moderate moisture conditions";
        expectedYield := "Medium" |}]
  else
    (* Low vegetation - focus on soil improvement *)
    [{| crop := "Green Manure"; confidence := "High";
        reason := "Low vegetation density, soil improvement needed";
        expectedYield := "N/A (Soil improvement)" |};
     {| crop := "Drought-resistant varieties"; confidence := "Medium";
        reason := "Low moisture conditions";
        expectedYield := "Low" |}].

Definition getIrrigationAdvice (currentNdvi : float) (historicalNdvi : option float)
  : string :=
  if (0.6 <=? currentNdvi)%float then
    "Optimal moisture levels. Maintain current irrigation schedule."%string
  else if (0.4 <=? currentNdvi)%float then
    "Good moisture levels. Consider slight increase in irrigation if trend is declining."%string
  else if (0.2 <=? currentNdvi)%float then
    "Moderate moisture levels. Increase irrigation frequency and duration."%string
  else
    "Low moisture levels. Immediate irrigation required. Consider drip irrigation for efficiency."%string.

Record Yield := {
  prediction : string;
  y_confidence : string;
  ndviBased : float;
  recommendation : string
}.

Definition predictYield (currentNdvi : float) (historicalNdvi : option float) : Yield :=
  let recommendation : string :=
    if (currentNdvi <? 0.3)%float
    then "Consider crop rotation or soil improvement"%string
    else "Continue current practices"%string in
  if (0.6 <=? currentNdvi)%float then
    {| prediction := "High"; y_confidence := "High";
       ndviBased := currentNdvi; recommendation := recommendation |}
  else if (0.4 <=? currentNdvi)%float then
    {| prediction := "Medium-High"; y_confidence := "Medium";
       ndviBased := currentNdvi; recommendation := recommendation |}
  else if (0.2 <=? currentNdvi)%float then
    {| prediction := "Medium"; y_confidence := "Medium";
       ndviBased := currentNdvi; recommendation := recommendation |}
  else
    {| prediction := "Low"; y_confidence := "High";
       ndviBased := currentNdvi; recommendation := recommendation |}.

Record Location := {
  latitude : float;
  longitude : float
}.

Record Suggestions := {
  vegetationHealth : Health;
  cropRecommendations : list Recommendation;
  irrigationAdvice : string;
  yieldPrediction : Yield;
  historicalComparison : Comparison
}.

Definition generateCropSuggestions (currentNdvi : float) (historicalNdvi : option float)
           (coordinates : Location) (season : string) : Suggestions :=
  {| vegetationHealth := analyzeVegetationHealth currentNdvi;
     (* Generate crop recommendations based on NDVI and season *)
     cropRecommendations := getCropRecommendations currentNdvi season;
     (* Generate irrigation advice *)
     irrigationAdvice := getIrrigationAdvice currentNdvi historicalNdvi;
     (* Predict yield based on vegetation health *)
     yieldPrediction := predictYield currentNdvi historicalNdvi;
     historicalComparison := compareWithHistorical currentNdvi historicalNdvi |}.

End Engine.

(** ** controllers/suggestionController.js: [getCropSuggestions] *)

Module Suggestion.

Record Query := {
  latitude : option string;
  longitude : option string;
  currentNdvi : option string;
  historicalNdvi : option string;
  season : option string;
  timeRange : option string
}.

Record Metadata := {
  location : Engine.Location;
  timestamp : string;
  m_timeRange : string;
  m_season : string
}.

Record Body := {
  suggestions : Engine.Suggestions;
  metadata : Metadata
}.

Inductive answer :=
| Status200 (body : Body)
| Status400 (error : string).

(** [p || 'current'] *)
Definition or_current (p : option string) : string :=
  match p with
  | Some s => if Value.truthy p then s else "current"%string
  | None => "current"%string
  end.

Definition getCropSuggestions (rt : Runtime) (query : Query) : answer :=
  (* Validate coordinates *)
  if negb (Utils.validateCoordinates
             (Value.Number (Value.parseFloat rt (latitude query)))
             (Value.Number (Value.parseFloat rt (longitude query))))
  then Status400 "Invalid coordinates provided"
  (* Validate NDVI data *)
  else if negb (Value.truthy (currentNdvi query))
          || is_nan (Value.parseFloat rt (currentNdvi query))
  then Status400 "Current NDVI value is required and must be a number"
  else
    let coordinates :=
      {| Engine.latitude := Value.parseFloat rt (latitude query);
         Engine.longitude := Value.parseFloat rt (longitude query) |} in
    let currentNdviValue := Value.parseFloat rt (currentNdvi query) in
    let historicalNdviValue :=
      if Value.truthy (historicalNdvi query)
      then Some (Value.parseFloat rt (historicalNdvi query)) else None in
    (* Generate suggestions *)
    let suggestions :=
      Engine.generateCropSuggestions currentNdviValue historicalNdviValue
        coordinates (or_current (season query)) in
    (* Add metadata *)
    Status200
      {| suggestions := suggestions;
         metadata := {| location := coordinates;
                        timestamp := toISOString rt;
                        m_timeRange := or_current (timeRange query);
                        m_season := or_current (season query) |} |}.

End Suggestion.

(** ** The satellite service: [calculateNDVIForLocation]

    A third copy of the NDVI loop, over two plain arrays of numbers
    and with a bound of its own. *)

Module Satellite.

Record Health := {
  status : string;
  percentage : Z;
  description : string
}.

Definition analyzeVegetationHealth (ndvi : float) : Health :=
  if (0.6 <=? ndvi)%float then
    {| status := "Excellent"; percentage := 90;
       description := "High vegetation density" |}
  else if (0.4 <=? ndvi)%float then
    {| status := "Good"; percentage := 75;
       description := "Healthy vegetation" |}
  else if (0.2 <=? ndvi)%float then
    {| status := "Moderate"; percentage := 50;
       description := "Moderate vegetation" |}
  else
    {| status := "Poor"; percentage := 25;
       description := "Low vegetation density" |}.

(** The result object, as far as the properties below look at it: the
    dimensions, the location with its bounding box, the source and the
    date are left out. *)
Record LocationResult := {
  meanNdvi : float;
  sample : list float;
  pixelCount : Z;
  vegetationHealth : Health
}.

Definition body (redBand nirBand : list float) (st : Acc) (i : nat) : Acc :=
  let red := JS.get redBand i in
  let nir := JS.get nirBand i in
  if JS.strict_neq (JS.plus nir red) 0 then
    let val := (JS.minus nir red / JS.plus nir red)%float in
    {| ndvi := JS.push (ndvi st) val;
       sum := (sum st + val)%float;
       count := count st + 1 |}
  else
    {| ndvi := JS.push (ndvi st) 0; sum := sum st; count := count st |}.

(** Calculate NDVI for each pixel in the area:
    [for (let i = 0; i < Math.min(redBand.length, nirBand.length); i++)]. *)
Definition reduce (redBand nirBand : list float) : Acc :=
  fold_left (body redBand nirBand)
    (seq 0 (Z.to_nat (JS.Math_min (JS.length redBand) (JS.length nirBand))))
    {| ndvi := []; sum := 0; count := 0 |}.

Definition calculateNDVIForLocation (rt : Runtime) (redBand nirBand : list float)
  : LocationResult :=
  let st := reduce redBand nirBand in
  let meanNdvi := JS.toFixed (sum st / number_of_count (count st)) 4 in
  {| meanNdvi := Value.parseFloat_text rt meanNdvi;
     sample := JS.slice0 (ndvi st) 100;
     pixelCount := count st;
     vegetationHealth := analyzeVegetationHealth (Value.parseFloat_text rt meanNdvi) |}.

End Satellite.

(** ** services/dynamicAreaService.js: [getSoilType] *)

Module Area.

(** [Math.floor(x)] of a finite number, as the integer it is; a NaN
    or an infinity is no integer ([None]), and every later step keeps
    it out of the indices of an array. *)
Definition Math_floor (x : float) : option Z :=
  match Prim2SF x with
  | S754_zero _ => Some 0
  | S754_finite s m e =>
      let v := if s then Z.neg m else Z.pos m in
      Some (if 0 <=? e then v * 2 ^ e else v / 2 ^ (- e))
  | S754_infinity _ | S754_nan => None
  end.

Definition soilTypes : list string :=
  ["Alluvial"; "Black"; "Red"; "Laterite"; "Mountain"]%string.

(** [soilTypes[index]] with
    [index = Math.floor((latitude + longitude) * 1000) % soilTypes.length]:
    the remainder of the language has the sign of the dividend
    ([Z.rem]), and an array has no element at a negative index. *)
Definition getSoilType (latitude longitude : float) : option string :=
  match Math_floor ((latitude + longitude) * 1000) with
  | Some k =>
      let index := Z.rem k (Z.of_nat (List.length soilTypes)) in
      if index <? 0 then None else nth_error soilTypes (Z.to_nat index)
  | None => None
  end.

End Area.

(** * Properties *)

(** ** The loop, iteration by iteration *)

Lemma loop_S (red nir : JS.TypedArray) (k : nat) :
  Service.loop red nir (S k) = Service.body red nir (Service.loop red nir k) k.
Proof.
  unfold Service.loop. rewrite seq_S, fold_left_app. reflexivity.
Qed.

(** Every iteration appends exactly one entry to [ndvi]. *)
Lemma body_pushes (red nir : JS.TypedArray) (st : Acc) (i : nat) :
  exists v, ndvi (Service.body red nir st i) = ndvi st ++ [v].
Proof.
  unfold Service.body.
  destruct (JS.strict_neq _ _); eexists; reflexivity.
Qed.

Lemma loop_length (red nir : JS.TypedArray) (k : nat) :
  List.length (ndvi (Service.loop red nir k)) = k.
Proof.
  induction k as [|k IH]; [reflexivity|].
  rewrite loop_S.
  destruct (body_pushes red nir (Service.loop red nir k) k) as [v ->].
  rewrite length_app, IH. simpl. lia.
Qed.

(** Later iterations never touch the entries already pushed. *)
Lemma loop_prefix (red nir : JS.TypedArray) (k d : nat) :
  firstn k (ndvi (Service.loop red nir (k + d))) = ndvi (Service.loop red nir k).
Proof.
  induction d as [|d IH].
  - rewrite Nat.add_0_r. rewrite <- (loop_length red nir k) at 1.
    apply firstn_all.
  - replace (k + S d)%nat with (S (k + d)) by lia. rewrite loop_S.
    destruct (body_pushes red nir (Service.loop red nir (k + d)) (k + d)) as [v ->].
    rewrite firstn_app, loop_length, IH.
    replace (k - (k + d))%nat with 0%nat by lia.
    simpl. apply app_nil_r.
Qed.

Lemma loop_nth (red nir : JS.TypedArray) (i n : nat) :
  (i < n)%nat ->
  nth_error (ndvi (Service.loop red nir n)) i
  = nth_error (ndvi (Service.loop red nir (S i))) i.
Proof.
  intros Hin.
  replace n with (S i + (n - S i))%nat by lia.
  rewrite <- (loop_prefix red nir (S i) (n - S i)).
  rewrite nth_error_firstn.
  destruct (Nat.ltb_spec i (S i)); [reflexivity | lia].
Qed.

Lemma bound_nonneg (red : JS.TypedArray) : 0 <= Service.bound red.
Proof.
  unfold Service.bound, JS.Math_min, JS.length, Service.maxPixels. lia.
Qed.

Lemma processed_reduce (red nir : JS.TypedArray) :
  totalPixelsProcessed (Service.reduce red nir)
  = Z.min (JS.length red) Service.maxPixels.
Proof.
  unfold totalPixelsProcessed, Service.reduce, JS.length at 1.
  rewrite loop_length, Z2Nat.id by apply bound_nonneg.
  reflexivity.
Qed.

(** An index the red band holds and the cap admits is one the loop visits. *)
Lemma index_visited (red : JS.TypedArray) (i : nat) (r : float) :
  JS.get red i = Some r ->
  Z.of_nat i < Service.maxPixels ->
  (i < Z.to_nat (Service.bound red))%nat.
Proof.
  intros Hget Hcap.
  assert (Hlen : (i < List.length red)%nat).
  { apply nth_error_Some. unfold JS.get in Hget. congruence. }
  unfold Service.bound, JS.Math_min, JS.length. lia.
Qed.

(** ** The two copies of the reducer agree *)

Lemma route_body_eq (red nir : JS.TypedArray) (st : Acc) (i : nat) :
  Route.body red nir st i = Service.body red nir st i.
Proof. reflexivity. Qed.

Lemma route_reduce_eq (red nir : JS.TypedArray) :
  Route.reduce red nir = Service.reduce red nir.
Proof. reflexivity. Qed.

Lemma route_handler_eq (files : option (Image * Image)) :
  Route.handler files = getNdviData files.
Proof.
  destruct files as [[redImage nirImage]|]; reflexivity.
Qed.

(** ** Zero-denominator pixels *)

Lemma body_zero_denominator (red nir : JS.TypedArray) (st : Acc) (i : nat) (r x : float) :
  JS.get red i = Some r ->
  JS.get nir i = Some x ->
  (x + r =? 0)%float = true ->
  Service.body red nir st i
  = {| ndvi := ndvi st ++ [0%float]; sum := sum st; count := count st |}.
Proof.
  intros Hr Hx Hz.
  unfold Service.body, JS.strict_neq, JS.plus.
  rewrite Hr, Hx. simpl JS.ToNumber. rewrite Hz. reflexivity.
Qed.

(** The loop's three variables in closed form: one output value per
    index, and the sum and the count taken over the valid indices only,
    in the order of the loop. *)
Lemma loop_over_valid (red nir : JS.TypedArray) (k : nat) :
  ndvi (Service.loop red nir k) = map (pixel_value red nir) (seq 0 k)
  /\ sum (Service.loop red nir k)
     = fold_left (fun s i => (s + pixel_value red nir i)%float)
         (filter (valid_pixel red nir) (seq 0 k)) 0%float
  /\ count (Service.loop red nir k)
     = Z.of_nat (List.length (filter (valid_pixel red nir) (seq 0 k))).
Proof.
  induction k as [|k (IHn & IHs & IHc)]; [repeat split|].
  rewrite loop_S, seq_S, map_app, filter_app, fold_left_app, length_app.
  rewrite Nat2Z.inj_add, <- IHn, <- IHs, <- IHc. simpl.
  unfold Service.body, pixel_value, valid_pixel, JS.push.
  destruct (JS.strict_neq (JS.plus (JS.get nir k) (JS.get red k)) 0) eqn:Hvalid;
    cbn [ndvi sum count fold_left List.length]; rewrite ?Hvalid; repeat split;
    first [reflexivity | lia].
Qed.

(** C1.  A pixel whose denominator [nir_i + red_i] is zero puts the
    value 0 into the per-pixel output and leaves the running sum and
    the valid-pixel count as they were, in both reducers.  So the sum
    is the sum of the values of the valid pixels alone, the count is
    their number, and [meanNdvi] is the four-decimal text of the one
    divided by the other, whatever the number of pixels processed.  For
    [red = [0,10]], [nir = [0,10]] the per-pixel output is
    [[0, ndvi of pixel 1]], one pixel is counted, and [meanNdvi] is the
    text of the NDVI of pixel 1 alone; for [red = [0,100]],
    [nir = [0,300]] it is ["0.5000"], the NDVI of pixel 1, and not the
    ["0.2500"] an average with the recorded 0 would give. *)
Theorem zero_denominator_excluded :
  (forall (red nir : JS.TypedArray) (i : nat) (r x : float),
      JS.get red i = Some r ->
      JS.get nir i = Some x ->
      Z.of_nat i < Service.maxPixels ->
      (x + r =? 0)%float = true ->
      let before := Service.loop red nir i in
      let after := Service.loop red nir (S i) in
      ndvi after = ndvi before ++ [0%float]
      /\ sum after = sum before
      /\ count after = count before
      /\ nth_error (ndvi (Service.reduce red nir)) i = Some 0%float
      /\ nth_error (ndvi (Route.reduce red nir)) i = Some 0%float)
  /\ (forall redImage nirImage : Image,
        let red := readRasters0 redImage in
        let nir := readRasters0 nirImage in
        let valid := filter (valid_pixel red nir) (seq 0 (iterations red)) in
        let total :=
          fold_left (fun s i => (s + pixel_value red nir i)%float) valid 0%float in
        sum (Service.reduce red nir) = total
        /\ count (Service.reduce red nir) = Z.of_nat (List.length valid)
        /\ sum (Route.reduce red nir) = total
        /\ count (Route.reduce red nir) = Z.of_nat (List.length valid)
        /\ meanNdvi (Service.calculateNdvi redImage nirImage)
           = JS.toFixed (total / number_of_count (Z.of_nat (List.length valid))) 4
        /\ exists result,
             Route.handler (Some (redImage, nirImage)) = Json200 result
             /\ meanNdvi result
                = JS.toFixed (total / number_of_count (Z.of_nat (List.length valid))) 4)
  /\ (let red := [0; 10]%float in
      let nir := [0; 10]%float in
      let pixel1 := ((10 - 10) / (10 + 10))%float in
      let st := Service.reduce red nir in
      ndvi st = [0%float; pixel1]
      /\ sum st = pixel1
      /\ count st = 1
      /\ (sum st / number_of_count (count st))%float = pixel1
      /\ (forall w h w' h',
             meanNdvi (Service.calculateNdvi (img red w h) (img nir w' h'))
             = JS.toFixed pixel1 4
             /\ Route.handler (Some (img red w h, img nir w' h'))
                = Json200 {| meanNdvi := JS.toFixed pixel1 4;
                             sample := [0%float; pixel1];
                             width := w; height := h |}))
  /\ (let red := [0; 100]%float in
      let nir := [0; 300]%float in
      let st := Service.reduce red nir in
      ndvi st = [0; 0.5]%float
      /\ sum st = 0.5%float
      /\ count st = 1
      /\ totalPixelsProcessed st = 2
      /\ (forall w h w' h',
             meanNdvi (Service.calculateNdvi (img red w h) (img nir w' h'))
             = JS.Text "0.5000"
             /\ Route.handler (Some (img red w h, img nir w' h'))
                = Json200 {| meanNdvi := JS.Text "0.5000";
                             sample := [0; 0.5]%float;
                             width := w; height := h |})).
Proof.
  split; [|split; [|split]].
  - intros red nir i r x Hr Hx Hcap Hz before after.
    assert (Hstep : after
                    = {| ndvi := ndvi before ++ [0%float];
                         sum := sum before; count := count before |}).
    { unfold after. rewrite loop_S. now apply body_zero_denominator with r x. }
    assert (Hnth : nth_error (ndvi (Service.reduce red nir)) i = Some 0%float).
    { unfold Service.reduce.
      rewrite loop_nth by (now apply index_visited with r).
      fold after. rewrite Hstep. simpl ndvi.
      rewrite nth_error_app2; unfold before; rewrite loop_length; [|lia].
      now rewrite Nat.sub_diag. }
    change (Route.reduce red nir) with (Service.reduce red nir).
    rewrite Hstep. simpl. auto.
  - intros redImage nirImage red nir valid total.
    destruct (loop_over_valid red nir (iterations red)) as (_ & Hsum & Hcount).
    change (Service.loop red nir (iterations red)) with (Service.reduce red nir)
      in Hsum, Hcount.
    fold valid in Hsum, Hcount. fold total in Hsum.
    assert (Hmean : meanNdvi (Service.calculateNdvi redImage nirImage)
                    = JS.toFixed (total / number_of_count (Z.of_nat (List.length valid))) 4).
    { unfold Service.calculateNdvi. cbn [meanNdvi]. fold red nir.
      now rewrite Hsum, Hcount. }
    change (Route.reduce red nir) with (Service.reduce red nir).
    repeat split; try assumption.
    exists (Service.calculateNdvi redImage nirImage).
    split; [reflexivity | exact Hmean].
  - vm_compute. repeat split; reflexivity.
  - vm_compute. repeat split; reflexivity.
Qed.

Lemma zero_denominator_excluded_witness :
  let red := [0; 100]%float in
  let nir := [0; 300]%float in
  ndvi (Service.loop red nir 1) = ndvi (Service.loop red nir 0) ++ [0%float]
  /\ sum (Service.loop red nir 1) = sum (Service.loop red nir 0)
  /\ count (Service.loop red nir 1) = count (Service.loop red nir 0)
  /\ nth_error (ndvi (Service.reduce red nir)) 0 = Some 0%float
  /\ nth_error (ndvi (Route.reduce red nir)) 0 = Some 0%float.
Proof.
  intros red nir.
  apply (proj1 zero_denominator_excluded red nir 0%nat 0%float 0%float);
    vm_compute; reflexivity.
Defined.

(** ** The number of pixels processed *)

(** C2, what the code does with a red band of five pixels and a NIR
    band of three.  The bound of both loops is
    [min(len(red), maxPixels)], for all bands: the length of the NIR
    band is not consulted.  So five pixels are processed, not three;
    the indices 3 and 4 are read past the end of the NIR band, where
    the read gives [undefined]; the two pixels count as valid with the
    value NaN, and the controller and the route answer with status 200
    and the text ["NaN"] as [meanNdvi].  The same loop in the satellite
    service stops at the shorter band: it processes three pixels. *)
Theorem shorter_nir_band_read_past_its_end :
  (forall red nir : JS.TypedArray,
      totalPixelsProcessed (Service.reduce red nir)
      = Z.min (JS.length red) Service.maxPixels
      /\ totalPixelsProcessed (Route.reduce red nir)
         = Z.min (JS.length red) Route.maxPixels)
  /\ (let red := [1; 2; 3; 4; 5]%float in
      let nir := [1; 2; 3]%float in
      let st := Service.reduce red nir in
      Z.min (Z.min (JS.length red) (JS.length nir)) Service.maxPixels = 3
      /\ totalPixelsProcessed st = 5
      /\ totalPixelsProcessed (Route.reduce red nir) = 5
      /\ JS.get nir 3 = None
      /\ JS.get nir 4 = None
      /\ ndvi st = [0; 0; 0; nan; nan]%float
      /\ count st = 5
      /\ sum st = nan
      /\ (forall w h w' h',
            getNdviData (Some (img red w h, img nir w' h'))
            = Json200 {| meanNdvi := JS.Text "NaN";
                         sample := [0; 0; 0; nan; nan]%float;
                         width := w; height := h |}
            /\ Route.handler (Some (img red w h, img nir w' h'))
               = Json200 {| meanNdvi := JS.Text "NaN";
                            sample := [0; 0; 0; nan; nan]%float;
                            width := w; height := h |})
      /\ totalPixelsProcessed (Satellite.reduce red nir) = 3
      /\ ndvi (Satellite.reduce red nir) = [0; 0; 0]%float
      /\ count (Satellite.reduce red nir) = 3).
Proof.
  split.
  - intros red nir.
    change (Route.reduce red nir) with (Service.reduce red nir).
    rewrite processed_reduce. split; reflexivity.
  - vm_compute. repeat split; reflexivity.
Qed.

(** C6.  Two bands of at least a million pixels each: exactly
    [maxPixels] = 1,000,000 pixels are processed, whatever the bands'
    lengths, in both reducers. *)
Theorem cap_enforced (red nir : JS.TypedArray) :
  1000000 <= JS.length red ->
  1000000 <= JS.length nir ->
  totalPixelsProcessed (Service.reduce red nir) = 1000000
  /\ totalPixelsProcessed (Route.reduce red nir) = 1000000.
Proof.
  intros Hred _.
  change (Route.reduce red nir) with (Service.reduce red nir).
  rewrite processed_reduce.
  unfold Service.maxPixels. lia.
Qed.

Lemma flat_band_length (v : float) : JS.length (flat_band v) = 2000000.
Proof.
  unfold JS.length, flat_band. rewrite repeat_length. apply Z2Nat.id. lia.
Qed.

Lemma cap_enforced_witness :
  1000000 <= JS.length (flat_band 100)
  /\ totalPixelsProcessed (Service.reduce (flat_band 100) (flat_band 300)) = 1000000
  /\ totalPixelsProcessed (Route.reduce (flat_band 100) (flat_band 300)) = 1000000.
Proof.
  assert (H : forall v, 1000000 <= JS.length (flat_band v)).
  { intros v. rewrite flat_band_length. lia. }
  split; [apply H|].
  apply (cap_enforced (flat_band 100) (flat_band 300)); apply H.
Defined.

(** ** The sample *)

Lemma firstn_of_seq (k start len : nat) :
  firstn k (seq start len) = seq start (Nat.min k len).
Proof.
  revert start len. induction k as [|k IH]; intros start [|len]; try reflexivity.
  simpl. now rewrite IH.
Qed.

(** C4.  The sample is the prefix of the per-pixel output, of length
    [min(100, totalPixelsProcessed)], where the number of pixels
    processed is [min(len(red), maxPixels)]: for a red band of [n]
    pixels the sample has [min(100, n)] entries, the values of the
    pixels [0 .. min(100, n) - 1] in order; never more than 100, and
    all of the output, one entry per pixel of the red band, when fewer
    than 100 pixels were processed. *)
Theorem sample_bound (redImage nirImage : Image) :
  let red := readRasters0 redImage in
  let nir := readRasters0 nirImage in
  let st := Service.reduce red nir in
  let result := Service.calculateNdvi redImage nirImage in
  totalPixelsProcessed st = Z.min (JS.length red) Service.maxPixels
  /\ sample result = firstn 100 (ndvi st)
  /\ sample result
     = map (pixel_value red nir) (seq 0 (Nat.min 100 (List.length red)))
  /\ JS.length (sample result) = Z.min 100 (totalPixelsProcessed st)
  /\ JS.length (sample result) = Z.min 100 (JS.length red)
  /\ JS.length (sample result) <= 100
  /\ (totalPixelsProcessed st < 100 ->
      sample result = ndvi st /\ JS.length (sample result) = JS.length red)
  /\ Route.handler (Some (redImage, nirImage)) = Json200 result.
Proof.
  intros red nir st result.
  assert (Hn : totalPixelsProcessed st = Z.min (JS.length red) Service.maxPixels)
    by apply processed_reduce.
  assert (Hsample : sample result = firstn 100 (ndvi st)) by reflexivity.
  assert (Hlen : JS.length (sample result) = Z.min 100 (totalPixelsProcessed st)).
  { rewrite Hsample. unfold totalPixelsProcessed, JS.length.
    rewrite length_firstn. lia. }
  assert (Hred : JS.length (sample result) = Z.min 100 (JS.length red)).
  { rewrite Hlen, Hn. unfold Service.maxPixels. lia. }
  split; [exact Hn|]. split; [exact Hsample|]. split; [|split; [exact Hlen|]].
  - rewrite Hsample. unfold st, Service.reduce.
    rewrite (proj1 (loop_over_valid red nir _)), firstn_map, firstn_of_seq.
    f_equal. f_equal.
    unfold Service.bound, JS.Math_min, JS.length, Service.maxPixels. lia.
  - split; [exact Hred|]. split; [lia|]. split; [|reflexivity].
    intros Hlt. split; [|lia].
    rewrite Hsample. apply firstn_all2.
    unfold totalPixelsProcessed, JS.length in Hlt. lia.
Qed.

Lemma sample_bound_witness :
  let st := Service.reduce [100; 0]%float [300; 0]%float in
  let result := Service.calculateNdvi (img [100; 0]%float 2 1) (img [300; 0]%float 2 1) in
  totalPixelsProcessed st < 100
  /\ sample result = ndvi st
  /\ JS.length (sample result) = 2.
Proof.
  intros st result.
  assert (Hlt : totalPixelsProcessed st < 100) by (vm_compute; reflexivity).
  split; [exact Hlt|].
  destruct (sample_bound (img [100; 0]%float 2 1) (img [300; 0]%float 2 1))
    as (_ & _ & _ & _ & _ & _ & Hall & _).
  exact (Hall Hlt).
Defined.

(** ** Known values *)

(** C7.  [red = [100]], [nir = [300]]: the pixel's NDVI is
    (300 - 100) / (300 + 100) = 0.5 exactly and the mean is returned as
    the text ["0.5000"], by both reducers. *)
Theorem known_value_round_trip (w h w' h' : Z) :
  ((300 - 100) / (300 + 100))%float = 0.5%float
  /\ ndvi (Service.reduce [100%float] [300%float]) = [0.5%float]
  /\ Service.calculateNdvi (img [100%float] w h) (img [300%float] w' h')
     = {| meanNdvi := JS.Text "0.5000"; sample := [0.5%float];
          width := w; height := h |}
  /\ Route.handler (Some (img [100%float] w h, img [300%float] w' h'))
     = Json200 {| meanNdvi := JS.Text "0.5000"; sample := [0.5%float];
                  width := w; height := h |}.
Proof.
  repeat split; vm_compute; reflexivity.
Qed.

(** C8.  The reducer inlined in the route handler and the one of the
    GeoTIFF service compute the same thing on the same rasters: the
    same loop variables, hence the same [meanNdvi] text and the same
    sample, and the same response as the controller that calls the
    service. *)
Theorem reducers_agree (redImage nirImage : Image) :
  Route.reduce (readRasters0 redImage) (readRasters0 nirImage)
  = Service.reduce (readRasters0 redImage) (readRasters0 nirImage)
  /\ Route.handler (Some (redImage, nirImage))
     = Json200 (Service.calculateNdvi redImage nirImage)
  /\ (forall files, Route.handler files = getNdviData files).
Proof.
  split; [reflexivity|]. split; [reflexivity|]. apply route_handler_eq.
Qed.

(** ** No valid pixel *)

(** While no pixel has been counted the sum is still its initial 0. *)
Lemma count_zero_sum_zero (red nir : JS.TypedArray) (k : nat) :
  0 <= count (Service.loop red nir k)
  /\ (count (Service.loop red nir k) = 0 -> sum (Service.loop red nir k) = 0%float).
Proof.
  induction k as [|k [IHc IHs]].
  - split; [vm_compute; discriminate | reflexivity].
  - rewrite loop_S. unfold Service.body.
    destruct (JS.strict_neq _ _); cbn [count sum]; split; try lia; assumption.
Qed.

(** Whenever no pixel is valid the mean is 0/0 and is returned as the
    text ["NaN"]. *)
Lemma no_valid_pixel_mean (redImage nirImage : Image) :
  count (Service.reduce (readRasters0 redImage) (readRasters0 nirImage)) = 0 ->
  meanNdvi (Service.calculateNdvi redImage nirImage) = JS.Text "NaN".
Proof.
  intros Hcount. unfold Service.calculateNdvi. cbn [meanNdvi].
  unfold Service.reduce in *.
  destruct (count_zero_sum_zero (readRasters0 redImage) (readRasters0 nirImage)
              (Z.to_nat (Service.bound (readRasters0 redImage)))) as [_ Hsum].
  rewrite (Hsum Hcount), Hcount. reflexivity.
Qed.

(** C3, what the code does on [red = [0,0]], [nir = [0,0]]: no pixel is
    valid, the mean is 0/0, and both the service (through its
    controller) and the route answer with status 200 and the text
    ["NaN"] as [meanNdvi].  Two empty bands ([n = 0]) give the same. *)
Theorem all_zero_yields_NaN_text (w h w' h' : Z) :
  let red := img [0; 0]%float w h in
  let nir := img [0; 0]%float w' h' in
  count (Service.reduce (readRasters0 red) (readRasters0 nir)) = 0
  /\ getNdviData (Some (red, nir))
     = Json200 {| meanNdvi := JS.Text "NaN"; sample := [0; 0]%float;
                  width := w; height := h |}
  /\ Route.handler (Some (red, nir))
     = Json200 {| meanNdvi := JS.Text "NaN"; sample := [0; 0]%float;
                  width := w; height := h |}
  /\ Route.handler (Some (img [] w h, img [] w' h'))
     = Json200 {| meanNdvi := JS.Text "NaN"; sample := [];
                  width := w; height := h |}.
Proof.
  repeat split; vm_compute; reflexivity.
Qed.

(** ** Binary64 arithmetic under negation and exchange of operands *)

Section SignSymmetry.

Variables prec emax : Z.

Lemma SFsame_refl (x : spec_float) : SFsame x x.
Proof. now left. Qed.

Lemma SFsame_sym (x y : spec_float) : SFsame x y -> SFsame y x.
Proof. intros [-> | [Hx Hy]]; [now left | now right]. Qed.

Lemma SFsame_trans (x y z : spec_float) : SFsame x y -> SFsame y z -> SFsame x z.
Proof.
  intros [-> | [Hx Hy]] [-> | [Hy' Hz]]; try (now left); now right.
Qed.

Lemma SFsame_opp (x y : spec_float) : SFsame x y -> SFsame (SFopp x) (SFopp y).
Proof.
  intros [-> | [Hx Hy]]; [now left|].
  destruct x, y; try discriminate. now right.
Qed.

Lemma SFopp_involutive (x : spec_float) : SFopp (SFopp x) = x.
Proof. destruct x; simpl; now rewrite ?negb_involutive. Qed.

Lemma binary_round_aux_opp (s : bool) (m e : Z) (l : location) :
  binary_round_aux prec emax (negb s) m e l
  = SFopp (binary_round_aux prec emax s m e l).
Proof.
  unfold binary_round_aux.
  destruct (shr_fexp prec emax m e l) as [mrs1 e1].
  destruct (shr_fexp prec emax _ e1 loc_Exact) as [mrs2 e2].
  destruct (shr_m mrs2); try reflexivity.
  destruct (e2 <=? emax - prec); reflexivity.
Qed.

Lemma binary_round_opp (s : bool) (m : positive) (e : Z) :
  binary_round prec emax (negb s) m e = SFopp (binary_round prec emax s m e).
Proof.
  unfold binary_round.
  destruct (shl_align m e _) as [mz ez].
  apply binary_round_aux_opp.
Qed.

Lemma binary_normalize_opp (m e : Z) :
  SFsame (binary_normalize prec emax (- m) e false)
         (SFopp (binary_normalize prec emax m e false)).
Proof.
  destruct m as [|p|p]; simpl.
  - now right.
  - left. apply (binary_round_opp false).
  - left. rewrite <- (binary_round_opp true). reflexivity.
Qed.

Lemma cond_Zopp_negb (s : bool) (m : Z) : cond_Zopp (negb s) m = - cond_Zopp s m.
Proof. destruct s; simpl; lia. Qed.

Lemma SFadd_comm (x y : spec_float) : SFadd prec emax x y = SFadd prec emax y x.
Proof.
  destruct x as [sx|sx| |sx mx ex], y as [sy|sy| |sy my ey];
    try reflexivity; try (destruct sx, sy; reflexivity).
  unfold SFadd. rewrite (Z.min_comm ey ex), Z.add_comm. reflexivity.
Qed.

Lemma SFadd_opp (x y : spec_float) :
  SFsame (SFadd prec emax (SFopp x) (SFopp y)) (SFopp (SFadd prec emax x y)).
Proof.
  destruct x as [sx|sx| |sx mx ex], y as [sy|sy| |sy my ey];
    try (now left); try (destruct sx, sy; (now left) || (now right)).
  unfold SFopp at 1 2. unfold SFadd.
  rewrite !cond_Zopp_negb, <- Z.opp_add_distr.
  apply binary_normalize_opp.
Qed.

Lemma SFadd_same (x x' y y' : spec_float) :
  SFsame x x' -> SFsame y y' ->
  SFsame (SFadd prec emax x y) (SFadd prec emax x' y').
Proof.
  intros [-> | [Hx Hx']] [-> | [Hy Hy']]; [now left| | |].
  - destruct y, y'; try discriminate.
    destruct x' as [sx|sx| |sx mx ex]; try (now left).
    destruct sx, s, s0; (now left) || (now right).
  - destruct x, x'; try discriminate.
    destruct y' as [sy|sy| |sy my ey]; try (now left).
    destruct sy, s, s0; (now left) || (now right).
  - destruct x, x', y, y'; try discriminate.
    destruct s, s0, s1, s2; (now left) || (now right).
Qed.

Lemma SFsub_swap (x y : spec_float) :
  SFsame (SFsub prec emax y x) (SFopp (SFsub prec emax x y)).
Proof.
  destruct x as [sx|sx| |sx mx ex], y as [sy|sy| |sy my ey];
    try (now left); try (destruct sx, sy; (now left) || (now right));
    try (left; simpl; now rewrite ?negb_involutive).
  unfold SFsub. rewrite (Z.min_comm ey ex).
  set (a := cond_Zopp sx _). set (b := cond_Zopp sy _).
  replace (b - a) with (- (a - b)) by ring.
  apply binary_normalize_opp.
Qed.

Lemma xorb_negb_l (a b : bool) : xorb (negb a) b = negb (xorb a b).
Proof. destruct a, b; reflexivity. Qed.

Lemma SFdiv_opp_l (x y : spec_float) :
  SFdiv prec emax (SFopp x) y = SFopp (SFdiv prec emax x y).
Proof.
  destruct x as [sx|sx| |sx mx ex], y as [sy|sy| |sy my ey];
    try reflexivity; try (simpl; now rewrite xorb_negb_l).
  unfold SFopp at 1. unfold SFdiv.
  destruct (SFdiv_core_binary prec emax (Z.pos mx) ex (Z.pos my) ey) as [[mz ez] lz].
  rewrite xorb_negb_l. apply binary_round_aux_opp.
Qed.

Lemma SFdiv_same_l (x x' y : spec_float) :
  SFsame x x' -> SFsame (SFdiv prec emax x y) (SFdiv prec emax x' y).
Proof.
  intros [-> | [Hx Hx']]; [now left|].
  destruct x, x'; try discriminate.
  destruct y; (now left) || (now right).
Qed.

End SignSymmetry.

(** The same facts on the numbers themselves. *)

Lemma same_number_refl (x : float) : same_number x x.
Proof. apply SFsame_refl. Qed.

Lemma add_comm (a b : float) : (a + b)%float = (b + a)%float.
Proof.
  apply Prim2SF_inj. rewrite !add_spec. apply SFadd_comm.
Qed.

Lemma add_negated (s s' v v' : float) :
  same_number s' (- s) -> same_number v' (- v) ->
  same_number (s' + v') (- (s + v)).
Proof.
  unfold same_number. rewrite !opp_spec, !add_spec. intros Hs Hv.
  apply SFsame_trans with (SF64add (SFopp (Prim2SF s)) (SFopp (Prim2SF v))).
  - now apply SFadd_same.
  - apply SFadd_opp.
Qed.

Lemma ratio_swapped (a b : float) :
  same_number ((a - b) / (a + b)) (- ((b - a) / (b + a))).
Proof.
  unfold same_number. rewrite opp_spec, !div_spec, !sub_spec, !add_spec.
  unfold SF64div, SF64sub, SF64add. rewrite <- SFdiv_opp_l.
  rewrite (SFadd_comm _ _ (Prim2SF b) (Prim2SF a)).
  apply SFdiv_same_l, SFsub_swap.
Qed.

Lemma zero_negated : same_number 0 (- 0).
Proof. right. split; reflexivity. Qed.

Lemma SFeqb_same (x y : spec_float) : SFeqb x y = true -> SFsame x y.
Proof.
  unfold SFeqb, SFcompare.
  destruct x as [sx|sx| |sx mx ex], y as [sy|sy| |sy my ey];
    try discriminate; try (destruct sx; discriminate);
    try (destruct sy; discriminate).
  - now right.
  - destruct sx, sy; try discriminate; now left.
  - destruct sx, sy; try discriminate;
      destruct (Z.compare_spec ex ey) as [-> | |]; try discriminate;
      fold (Pos.compare mx my);
      destruct (Pos.compare_spec mx my) as [-> | |]; try discriminate;
      now left.
Qed.

Lemma SFeqb_refl (x : spec_float) : x <> S754_nan -> SFeqb x x = true.
Proof.
  intros Hx. unfold SFeqb, SFcompare.
  destruct x as [sx|sx| |sx mx ex]; try reflexivity; try congruence.
  - destruct sx; reflexivity.
  - rewrite Z.compare_refl. fold (Pos.compare mx mx). rewrite Pos.compare_refl.
    destruct sx; reflexivity.
Qed.

Lemma SameValueZero_spec (x y : float) :
  JS.SameValueZero x y = true <-> same_number x y.
Proof.
  unfold JS.SameValueZero, same_number, is_nan. rewrite !eqb_spec.
  split.
  - intros H. apply orb_true_iff in H. destruct H as [H | H].
    + now apply SFeqb_same.
    + apply andb_true_iff in H. destruct H as [Hx Hy].
      left.
      destruct (Prim2SF x) eqn:Ex; try (rewrite SFeqb_refl in Hx; [discriminate|congruence]).
      destruct (Prim2SF y) eqn:Ey; try (rewrite SFeqb_refl in Hy; [discriminate|congruence]).
      reflexivity.
  - intros [Heq | [Hx Hy]].
    + rewrite Heq.
      destruct (Prim2SF y) eqn:Ey;
        try (rewrite SFeqb_refl by congruence; reflexivity).
      reflexivity.
    + destruct (Prim2SF x), (Prim2SF y); try discriminate. reflexivity.
Qed.

(** ** Exchanging the two bands *)

(** The guard of an iteration does not depend on the order of the bands. *)
Lemma guard_swapped (red nir : JS.TypedArray) (i : nat) :
  JS.strict_neq (JS.plus (JS.get red i) (JS.get nir i)) 0
  = JS.strict_neq (JS.plus (JS.get nir i) (JS.get red i)) 0.
Proof.
  unfold JS.plus. now rewrite add_comm.
Qed.

Lemma loop_swapped (red nir : JS.TypedArray) (k : nat) :
  Forall2 (fun v' v => same_number v' (- v))
    (ndvi (Service.loop nir red k)) (ndvi (Service.loop red nir k))
  /\ same_number (sum (Service.loop nir red k)) (- sum (Service.loop red nir k))
  /\ count (Service.loop nir red k) = count (Service.loop red nir k).
Proof.
  induction k as [|k (IHndvi & IHsum & IHcount)].
  - repeat split; [constructor | apply zero_negated].
  - rewrite !loop_S. unfold Service.body.
    rewrite (guard_swapped red nir k).
    destruct (JS.strict_neq (JS.plus (JS.get nir k) (JS.get red k)) 0);
      cbn [ndvi sum count]; unfold JS.push.
    + assert (Hval : same_number
                (JS.minus (JS.get red k) (JS.get nir k)
                 / JS.plus (JS.get red k) (JS.get nir k))
                (- (JS.minus (JS.get nir k) (JS.get red k)
                    / JS.plus (JS.get nir k) (JS.get red k)))).
      { unfold JS.minus, JS.plus. apply ratio_swapped. }
      repeat split.
      * apply Forall2_app; [exact IHndvi | constructor; [exact Hval | constructor]].
      * now apply add_negated.
      * now rewrite IHcount.
    + repeat split; try assumption.
      apply Forall2_app; [exact IHndvi | constructor; [apply zero_negated | constructor]].
Qed.

(** C10, what the code does on [red = [1,2]], [nir = [3]] and on the
    two exchanged.  The bound of the loop is the length of the first
    band only, so the exchange changes the number of pixels processed
    (2 against 1): index 1 is read past the end of the NIR band and
    counts as a valid pixel of value NaN.  The valid-pixel count
    changes (2 against 1) and the sum is not negated (NaN against
    -0.5).  The same loop in the satellite service, which stops at the
    shorter band, does what the claim says, on this input and on every
    pair of bands: the exchange negates every per-pixel value and the
    sum as numbers (the sign of a zero apart, and NaN kept NaN) and
    keeps the count.  So do the two reducers on bands of equal
    length. *)
Theorem swap_not_negated_on_unequal_bands :
  (let red := [1; 2]%float in
   let nir := [3]%float in
   totalPixelsProcessed (Service.reduce red nir) = 2
   /\ totalPixelsProcessed (Service.reduce nir red) = 1
   /\ JS.get nir 1 = None
   /\ ndvi (Service.reduce red nir) = [0.5; nan]%float
   /\ ndvi (Service.reduce nir red) = [(-0.5)%float]
   /\ count (Service.reduce red nir) = 2
   /\ count (Service.reduce nir red) = 1
   /\ count (Service.reduce nir red) <> count (Service.reduce red nir)
   /\ sum (Service.reduce red nir) = nan
   /\ sum (Service.reduce nir red) = (-0.5)%float
   /\ JS.SameValueZero (sum (Service.reduce nir red)) (- sum (Service.reduce red nir))
      = false
   /\ Route.reduce red nir = Service.reduce red nir
   /\ Route.reduce nir red = Service.reduce nir red
   /\ ndvi (Satellite.reduce red nir) = [0.5%float]
   /\ ndvi (Satellite.reduce nir red) = [(-0.5)%float]
   /\ count (Satellite.reduce red nir) = 1
   /\ count (Satellite.reduce nir red) = 1)
  /\ (forall red nir : list float,
        Forall2 (fun v' v => JS.SameValueZero v' (- v) = true)
          (ndvi (Satellite.reduce nir red)) (ndvi (Satellite.reduce red nir))
        /\ JS.SameValueZero (sum (Satellite.reduce nir red))
             (- sum (Satellite.reduce red nir)) = true
        /\ count (Satellite.reduce nir red) = count (Satellite.reduce red nir))
  /\ (forall red nir : JS.TypedArray,
        JS.length red = JS.length nir ->
        Forall2 (fun v' v => JS.SameValueZero v' (- v) = true)
          (ndvi (Service.reduce nir red)) (ndvi (Service.reduce red nir))
        /\ JS.SameValueZero (sum (Service.reduce nir red))
             (- sum (Service.reduce red nir)) = true
        /\ count (Service.reduce nir red) = count (Service.reduce red nir)).
Proof.
  assert (Hloop : forall (red nir : JS.TypedArray) (k : nat),
             Forall2 (fun v' v => JS.SameValueZero v' (- v) = true)
               (ndvi (Service.loop nir red k)) (ndvi (Service.loop red nir k))
             /\ JS.SameValueZero (sum (Service.loop nir red k))
                  (- sum (Service.loop red nir k)) = true
             /\ count (Service.loop nir red k) = count (Service.loop red nir k)).
  { intros red nir k.
    destruct (loop_swapped red nir k) as (Hndvi & Hsum & Hcount).
    split; [|split; [now apply SameValueZero_spec | exact Hcount]].
    eapply Forall2_impl; [|exact Hndvi].
    intros v' v Hv. now apply SameValueZero_spec. }
  split; [|split].
  - vm_compute. repeat split; first [reflexivity | discriminate].
  - intros red nir.
    change (Satellite.reduce red nir)
      with (Service.loop red nir
              (Z.to_nat (JS.Math_min (JS.length red) (JS.length nir)))).
    change (Satellite.reduce nir red)
      with (Service.loop nir red
              (Z.to_nat (JS.Math_min (JS.length nir) (JS.length red)))).
    unfold JS.Math_min. rewrite (Z.min_comm (JS.length nir)). apply Hloop.
  - intros red nir Hlen. unfold Service.reduce, Service.bound.
    rewrite <- Hlen. apply Hloop.
Qed.

Lemma swap_not_negated_on_unequal_bands_witness :
  let red := [100; 0; 50]%float in
  let nir := [300; 0; 50]%float in
  JS.length red = JS.length nir
  /\ Forall2 (fun v' v => JS.SameValueZero v' (- v) = true)
       (ndvi (Service.reduce nir red)) (ndvi (Service.reduce red nir))
  /\ JS.SameValueZero (sum (Service.reduce nir red)) (- sum (Service.reduce red nir))
     = true
  /\ count (Service.reduce nir red) = count (Service.reduce red nir).
Proof.
  intros red nir.
  assert (Hlen : JS.length red = JS.length nir) by reflexivity.
  split; [exact Hlen|].
  exact (proj2 (proj2 swap_not_negated_on_unequal_bands) red nir Hlen).
Defined.

(** ** Binary64 rounding: values and bounds *)

Lemma bpow_pos (e : Z) : (0 < bpow e)%R.
Proof. apply powerRZ_lt. lra. Qed.

Lemma bpow_add (a b : Z) : bpow (a + b) = (bpow a * bpow b)%R.
Proof. apply powerRZ_add. lra. Qed.

Lemma bpow_Z (n : Z) : 0 <= n -> bpow n = IZR (2 ^ n).
Proof.
  intros Hn. unfold bpow. destruct n as [|p|p]; [reflexivity | | lia].
  change (2 ^ Z.pos p) with (Z.pow_pos 2 p).
  now rewrite Zpower_pos_powerRZ.
Qed.

Lemma bpow_0 : bpow 0 = 1%R.
Proof. reflexivity. Qed.

Lemma bpow_1 : bpow 1 = 2%R.
Proof. unfold bpow. simpl. lra. Qed.

Lemma bpow_ge_1 (n : Z) : 0 <= n -> (1 <= bpow n)%R.
Proof.
  intros Hn. rewrite bpow_Z by assumption.
  apply IZR_le. assert (0 < 2 ^ n) by (apply Z.pow_pos_nonneg; lia). lia.
Qed.

Lemma bpow_le (a b : Z) : a <= b -> (bpow a <= bpow b)%R.
Proof.
  intros Hab. replace b with (a + (b - a)) by ring. rewrite bpow_add.
  pose proof (bpow_pos a). pose proof (bpow_ge_1 (b - a) ltac:(lia)). nra.
Qed.

Lemma bpow_lt (a b : Z) : a < b -> (bpow a < bpow b)%R.
Proof.
  intros Hab. replace b with (a + 1 + (b - a - 1)) by ring. rewrite !bpow_add.
  pose proof (bpow_pos a). pose proof (bpow_ge_1 (b - a - 1) ltac:(lia)).
  rewrite bpow_1. nra.
Qed.

Lemma bpow_lt_inv (a b : Z) : (bpow a < bpow b)%R -> a < b.
Proof.
  intros H. destruct (Z_lt_le_dec a b) as [|Hle]; [assumption|].
  apply bpow_le in Hle. lra.
Qed.

Lemma bpow_le_inv (a b : Z) : (bpow a <= bpow b)%R -> a <= b.
Proof.
  intros H. destruct (Z_le_gt_dec a b) as [|Hgt]; [assumption|].
  apply Z.gt_lt, bpow_lt in Hgt. lra.
Qed.

(** Moving a factor [2^n] between mantissa and exponent. *)
Lemma F2R_shift (m e n : Z) : 0 <= n -> F2R (m * 2 ^ n) e = F2R m (e + n).
Proof.
  intros Hn. unfold F2R. rewrite mult_IZR, bpow_add, <- bpow_Z by assumption.
  ring.
Qed.

Lemma F2R_le (m m' e : Z) : m <= m' -> (F2R m e <= F2R m' e)%R.
Proof.
  intros H. unfold F2R. apply IZR_le in H. pose proof (bpow_pos e). nra.
Qed.

Lemma F2R_lt (m m' e : Z) : m < m' -> (F2R m e < F2R m' e)%R.
Proof.
  intros H. unfold F2R. apply IZR_lt in H. pose proof (bpow_pos e). nra.
Qed.

Lemma F2R_le_inv (m m' e : Z) : (F2R m e <= F2R m' e)%R -> m <= m'.
Proof.
  intros H. destruct (Z_le_gt_dec m m') as [|Hgt]; [assumption|].
  apply Z.gt_lt, (F2R_lt _ _ e) in Hgt. lra.
Qed.

Lemma F2R_lt_inv (m m' e : Z) : (F2R m e < F2R m' e)%R -> m < m'.
Proof.
  intros H. destruct (Z_lt_le_dec m m') as [|Hle]; [assumption|].
  apply (F2R_le _ _ e) in Hle. lra.
Qed.

(** ** Number of binary digits *)

Lemma digits2_pos_bounds (p : positive) :
  2 ^ (Z.pos (digits2_pos p) - 1) <= Z.pos p < 2 ^ Z.pos (digits2_pos p).
Proof.
  induction p as [p IH | p IH |]; simpl digits2_pos.
  - rewrite Pos2Z.inj_succ.
    replace (Z.succ (Z.pos (digits2_pos p)) - 1) with (Z.succ (Z.pos (digits2_pos p) - 1)) by lia.
    rewrite !Z.pow_succ_r by lia. lia.
  - rewrite Pos2Z.inj_succ.
    replace (Z.succ (Z.pos (digits2_pos p)) - 1) with (Z.succ (Z.pos (digits2_pos p) - 1)) by lia.
    rewrite !Z.pow_succ_r by lia. lia.
  - simpl. lia.
Qed.

Lemma Zdigits2_bounds (m : Z) :
  0 < m -> 0 < Zdigits2 m /\ 2 ^ (Zdigits2 m - 1) <= m < 2 ^ Zdigits2 m.
Proof.
  destruct m as [|p|p]; try lia. intros _. simpl Zdigits2.
  split; [lia | apply digits2_pos_bounds].
Qed.

Lemma Zdigits2_F2R (m e : Z) :
  0 < m -> (bpow (Zdigits2 m - 1 + e) <= F2R m e < bpow (Zdigits2 m + e))%R.
Proof.
  intros Hm. destruct (Zdigits2_bounds m Hm) as [Hd [Hlo Hhi]].
  rewrite !bpow_add. unfold F2R.
  rewrite (bpow_Z (Zdigits2 m - 1)), (bpow_Z (Zdigits2 m)) by lia.
  apply IZR_le in Hlo. apply IZR_lt in Hhi.
  pose proof (bpow_pos e). split; nra.
Qed.

(** ** Shifting right *)

Lemma shr_1_spec (mrs : shr_record) :
  0 <= shr_m mrs ->
  0 <= shr_m (shr_1 mrs)
  /\ shr_m (shr_1 mrs) * 2 <= shr_m mrs < (shr_m (shr_1 mrs) + 1) * 2
  /\ (inexact (shr_1 mrs) = true ->
      inexact mrs = true \/ shr_m (shr_1 mrs) * 2 < shr_m mrs).
Proof.
  destruct mrs as [m r s]. unfold inexact. simpl shr_m at 1 4 5.
  intros Hm.
  destruct m as [|[p|p|]|p]; try lia; cbn [shr_1 shr_m shr_r shr_s];
    (split; [lia|]); (split; [lia|]);
    destruct r, s; simpl; intros H; try discriminate; auto; right; lia.
Qed.

Lemma shifted_1 (x : shr_record) : 0 <= shr_m x -> shifted 1 x (shr_1 x).
Proof.
  intros Hx. unfold shifted. change (2 ^ 1) with 2. now apply shr_1_spec.
Qed.

Lemma shifted_trans (j k : Z) (x y z : shr_record) :
  0 <= j -> 0 <= k ->
  shifted j x y -> shifted k y z -> shifted (j + k) x z.
Proof.
  intros Hj Hk (Hy0 & [Hy1 Hy2] & Hy3) (Hz0 & [Hz1 Hz2] & Hz3).
  unfold shifted. rewrite Z.pow_add_r by assumption.
  assert (Hpj : 0 < 2 ^ j) by (apply Z.pow_pos_nonneg; lia).
  assert (Hpk : 0 < 2 ^ k) by (apply Z.pow_pos_nonneg; lia).
  split; [assumption|]. split; [split; nia|].
  intros Hz. destruct (Hz3 Hz) as [Hy | Hlt].
  - destruct (Hy3 Hy) as [Hx | Hlt]; [now left | right; nia].
  - right. nia.
Qed.

Lemma iter_pos_shifted (n : positive) (x : shr_record) :
  0 <= shr_m x -> shifted (Z.pos n) x (SpecFloat.iter_pos shr_1 n x).
Proof.
  revert x. induction n as [n IH | n IH |]; intros x Hx; simpl SpecFloat.iter_pos.
  - pose proof (shifted_1 x Hx) as H1.
    assert (H1m : 0 <= shr_m (shr_1 x)) by apply H1.
    pose proof (IH _ H1m) as H2.
    assert (H2m : 0 <= shr_m (SpecFloat.iter_pos shr_1 n (shr_1 x))) by apply H2.
    pose proof (IH _ H2m) as H3.
    replace (Z.pos n~1) with (1 + Z.pos n + Z.pos n) by lia.
    apply shifted_trans with (SpecFloat.iter_pos shr_1 n (shr_1 x)); try lia; [|exact H3].
    apply shifted_trans with (shr_1 x); try lia; assumption.
  - pose proof (IH _ Hx) as H2.
    assert (H2m : 0 <= shr_m (SpecFloat.iter_pos shr_1 n x)) by apply H2.
    pose proof (IH _ H2m) as H3.
    replace (Z.pos n~0) with (Z.pos n + Z.pos n) by lia.
    apply shifted_trans with (SpecFloat.iter_pos shr_1 n x); try lia; assumption.
  - now apply shifted_1.
Qed.

Lemma F2R_pos (m e : Z) : 0 < m -> (0 < F2R m e)%R.
Proof.
  intros Hm. unfold F2R. apply Rmult_lt_0_compat; [now apply IZR_lt | apply bpow_pos].
Qed.

Lemma F2R_pos_inv (m e : Z) : (0 < F2R m e)%R -> 0 < m.
Proof.
  intros H. apply F2R_lt_inv with e. unfold F2R at 1. now rewrite Rmult_0_l.
Qed.

Section Rounding.

Variables prec emax : Z.
Hypothesis Hprec : 0 < prec.
Hypothesis Hemax : prec < emax.

Local Abbreviation fexp := (SpecFloat.fexp prec emax).
Local Abbreviation emin := (SpecFloat.emin prec emax).

Lemma shifted_0 (x : shr_record) : 0 <= shr_m x -> shifted 0 x x.
Proof.
  intros Hx. unfold shifted. change (2 ^ 0) with 1.
  split; [assumption|]. split; [lia|]. now left.
Qed.

Lemma shr_spec (mrs mrs' : shr_record) (e n e' : Z) :
  0 <= shr_m mrs ->
  shr mrs e n = (mrs', e') ->
  e' = e + Z.max 0 n /\ shifted (Z.max 0 n) mrs mrs'.
Proof.
  intros Hm. unfold shr.
  destruct n as [|p|p]; intros H; injection H as <- <-.
  - split; [lia | now apply shifted_0].
  - split; [lia | now apply iter_pos_shifted].
  - split; [lia | now apply shifted_0].
Qed.

Lemma shr_m_of_loc (m : Z) (l : location) : shr_m (shr_record_of_loc m l) = m.
Proof. destruct l as [|[]]; reflexivity. Qed.

Lemma inexact_of_loc (m : Z) (l : location) :
  inexact (shr_record_of_loc m l) = true -> l <> loc_Exact.
Proof. destruct l as [|[]]; unfold inexact; simpl; congruence. Qed.

(** The first step of rounding: the floor of the mantissa at the
    exponent the format gives to this magnitude. *)
Lemma shr_fexp_spec (m e : Z) (l : location) (mrs : shr_record) (e' : Z) :
  0 <= m ->
  shr_fexp prec emax m e l = (mrs, e') ->
  e' = Z.max e (fexp (Zdigits2 m + e))
  /\ 0 <= shr_m mrs
  /\ shr_m mrs * 2 ^ (e' - e) <= m < (shr_m mrs + 1) * 2 ^ (e' - e)
  /\ (inexact mrs = true -> l <> loc_Exact \/ shr_m mrs * 2 ^ (e' - e) < m).
Proof.
  intros Hm H. unfold shr_fexp in H.
  apply shr_spec in H; [|now rewrite shr_m_of_loc].
  destruct H as [-> (H0 & H1 & H2)]. rewrite shr_m_of_loc in *.
  replace (e + Z.max 0 (fexp (Zdigits2 m + e) - e) - e)
    with (Z.max 0 (fexp (Zdigits2 m + e) - e)) by lia.
  repeat split; try lia.
  intros Hi. destruct (H2 Hi) as [Hl | Hlt]; [left | now right].
  now apply inexact_of_loc with m.
Qed.

Lemma round_nearest_even_spec (mrs : shr_record) :
  let m2 := round_nearest_even (shr_m mrs) (loc_of_shr_record mrs) in
  shr_m mrs <= m2 <= shr_m mrs + 1
  /\ (m2 = shr_m mrs + 1 -> inexact mrs = true).
Proof.
  destruct mrs as [m [] []]; unfold inexact; simpl;
    try destruct (Z.even m); split; try lia; auto; intros; lia.
Qed.

(** What [binary_round_aux] computes, step by step. *)
Lemma binary_round_aux_steps (s : bool) (mx ex : Z) (lx : location) :
  0 <= mx ->
  exists (mrs1 : shr_record) (e1 m2 m3 e3 : Z),
    shr_fexp prec emax mx ex lx = (mrs1, e1)
    /\ shr_m mrs1 <= m2 <= shr_m mrs1 + 1
    /\ (m2 = shr_m mrs1 + 1 -> inexact mrs1 = true)
    /\ e3 = Z.max e1 (fexp (Zdigits2 m2 + e1))
    /\ 0 <= m3
    /\ m3 * 2 ^ (e3 - e1) <= m2 < (m3 + 1) * 2 ^ (e3 - e1)
    /\ binary_round_aux prec emax s mx ex lx
       = match m3 with
         | 0 => S754_zero s
         | Z.pos p => if e3 <=? emax - prec then S754_finite s p e3 else S754_infinity s
         | Z.neg _ => S754_nan
         end.
Proof.
  intros Hmx. unfold binary_round_aux.
  destruct (shr_fexp prec emax mx ex lx) as [mrs1 e1] eqn:E1.
  destruct (shr_fexp_spec _ _ _ _ _ Hmx E1) as (He1 & Hm1 & _ & _).
  destruct (round_nearest_even_spec mrs1) as [Hm2 Hup].
  set (m2 := round_nearest_even (shr_m mrs1) (loc_of_shr_record mrs1)) in *.
  destruct (shr_fexp prec emax m2 e1 loc_Exact) as [mrs3 e3] eqn:E3.
  assert (H2 : 0 <= m2) by lia.
  destruct (shr_fexp_spec _ _ _ _ _ H2 E3) as (He3 & Hm3 & Hfl & _).
  exists mrs1, e1, m2, (shr_m mrs3), e3.
  repeat split; try assumption; try lia.
Qed.

(** What a number of the format is made of. *)
Lemma bounded_spec (m : positive) (e : Z) :
  SpecFloat.bounded prec emax m e = true ->
  Z.pos (digits2_pos m) <= prec /\ emin <= e /\ e <= emax - prec.
Proof.
  unfold SpecFloat.bounded, canonical_mantissa, SpecFloat.fexp. intros H.
  apply andb_true_iff in H. destruct H as [H1 H2].
  apply Z.eqb_eq in H1. apply Z.leb_le in H2. lia.
Qed.

Lemma bounded_lt (m : positive) (e : Z) :
  SpecFloat.bounded prec emax m e = true -> (F2R (Z.pos m) e < bpow (prec + e))%R.
Proof.
  intros H. apply bounded_spec in H. destruct H as (Hd & _ & _).
  destruct (Zdigits2_F2R (Z.pos m) e ltac:(lia)) as [_ Hlt].
  simpl Zdigits2 in Hlt.
  pose proof (bpow_le (Z.pos (digits2_pos m) + e) (prec + e) ltac:(lia)). lra.
Qed.

(** A floor at the exponent of the format stays above the numbers of
    the format that were below. *)
Lemma floor_step_lower (m e e' m' : Z) (mF : positive) (eF : Z) :
  0 < m ->
  e' = Z.max e (fexp (Zdigits2 m + e)) ->
  m' * 2 ^ (e' - e) <= m < (m' + 1) * 2 ^ (e' - e) ->
  SpecFloat.bounded prec emax mF eF = true ->
  (F2R (Z.pos mF) eF <= F2R m e)%R ->
  (F2R (Z.pos mF) eF <= F2R m' e')%R.
Proof.
  intros Hm He' [Hlo Hhi] HF Hle.
  assert (Hn : 0 <= e' - e) by lia.
  assert (Hpn : 0 < 2 ^ (e' - e)) by (apply Z.pow_pos_nonneg; lia).
  destruct (Z_le_gt_dec e' eF) as [HeF | HeF].
  - (* the bound is a multiple of the new unit *)
    set (K := Z.pos mF * 2 ^ (eF - e')).
    assert (HK : F2R (Z.pos mF) eF = F2R K e').
    { unfold K. rewrite F2R_shift by lia. f_equal. lia. }
    rewrite HK in *. apply F2R_le.
    assert (HKm : K * 2 ^ (e' - e) <= m).
    { apply F2R_le_inv with e. rewrite F2R_shift by lia.
      replace (e + (e' - e)) with e' by lia. exact Hle. }
    nia.
  - destruct (Z.eq_dec e' e) as [Hee | Hne].
    + rewrite Hee in *. rewrite Z.sub_diag in *. change (2 ^ 0) with 1 in *.
      replace m' with m by lia. exact Hle.
    + (* a true shift, above the smallest exponent: the floor has full precision *)
      destruct (bounded_spec _ _ HF) as (_ & HeF' & _).
      assert (He'd : e' = Zdigits2 m + e - prec).
      { unfold SpecFloat.fexp in He'. lia. }
      destruct (Zdigits2_bounds m Hm) as [Hd [Hdlo _]].
      assert (Hfull : 2 ^ (prec - 1) <= m').
      { assert (2 ^ (prec - 1) * 2 ^ (e' - e) <= m).
        { rewrite <- Z.pow_add_r by lia.
          replace (prec - 1 + (e' - e)) with (Zdigits2 m - 1) by lia. exact Hdlo. }
        assert (0 < 2 ^ (prec - 1)) by (apply Z.pow_pos_nonneg; lia).
        nia. }
      apply (F2R_le _ _ e') in Hfull.
      pose proof (bounded_lt _ _ HF) as HFlt.
      pose proof (bpow_le (prec + eF) (prec - 1 + e') ltac:(lia)) as Hb.
      unfold F2R in Hfull at 1. rewrite <- bpow_Z, <- bpow_add in Hfull by lia.
      lra.
Qed.

(** Rounding up stays below an upper bound that is a multiple of the
    unit.  [v] is the number being rounded, located by [(m, l)]. *)
Lemma round_up_upper (m e : Z) (l : location) (mrs1 : shr_record) (e1 m2 : Z)
      (v : R) (mF eF : Z) :
  0 <= m ->
  shr_fexp prec emax m e l = (mrs1, e1) ->
  shr_m mrs1 <= m2 <= shr_m mrs1 + 1 ->
  (m2 = shr_m mrs1 + 1 -> inexact mrs1 = true) ->
  (F2R m e <= v)%R ->
  (l <> loc_Exact -> (F2R m e < v)%R) ->
  e1 <= eF ->
  (v <= F2R mF eF)%R ->
  (F2R m2 e1 <= F2R mF eF)%R.
Proof.
  intros Hm E1 Hm2 Hup Hv Hvl He1F HvF.
  destruct (shr_fexp_spec _ _ _ _ _ Hm E1) as (He1 & Hm1 & [Hlo Hhi] & Hinex).
  assert (Hn : 0 <= e1 - e) by lia.
  set (K := mF * 2 ^ (eF - e1)).
  assert (HK : F2R mF eF = F2R K e1).
  { unfold K. rewrite F2R_shift by lia. f_equal. lia. }
  rewrite HK in *. apply F2R_le.
  assert (Hfloor : (F2R (shr_m mrs1) e1 <= F2R m e)%R).
  { replace e1 with (e + (e1 - e)) by lia. rewrite <- F2R_shift by lia.
    now apply F2R_le. }
  assert (Hm1K : shr_m mrs1 <= K) by (apply F2R_le_inv with e1; lra).
  destruct (Z.eq_dec m2 (shr_m mrs1 + 1)) as [Heq | Hne]; [|lia].
  assert (shr_m mrs1 < K); [|lia].
  apply F2R_lt_inv with e1.
  destruct (Hinex (Hup Heq)) as [Hl | Hlt].
  - specialize (Hvl Hl). lra.
  - assert ((F2R (shr_m mrs1) e1 < F2R m e)%R); [|lra].
    replace e1 with (e + (e1 - e)) by lia. rewrite <- F2R_shift by lia.
    now apply F2R_lt.
Qed.

Lemma iter_xO_spec (p d : positive) :
  Z.pos (Pos.iter xO p d) = Z.pos p * 2 ^ Z.pos d
  /\ Z.pos (digits2_pos (Pos.iter xO p d)) = Z.pos (digits2_pos p) + Z.pos d.
Proof.
  induction d as [|d [IH1 IH2]] using Pos.peano_ind.
  - simpl. split; lia.
  - rewrite Pos.iter_succ. simpl digits2_pos.
    rewrite Pos2Z.inj_xO, IH1, !Pos2Z.inj_succ, IH2, Z.pow_succ_r by lia.
    split; lia.
Qed.

Lemma shl_align_spec (mx : positive) (ex ex' : Z) (mz : positive) (ez : Z) :
  shl_align mx ex ex' = (mz, ez) ->
  ez = Z.min ex ex'
  /\ F2R (Z.pos mz) ez = F2R (Z.pos mx) ex
  /\ Z.pos (digits2_pos mz) + ez = Z.pos (digits2_pos mx) + ex.
Proof.
  unfold shl_align.
  destruct (ex' - ex) as [|d|d] eqn:Hd; intros H; injection H as <- <-.
  - repeat split; lia.
  - repeat split; lia.
  - destruct (iter_xO_spec mx d) as [H1 H2].
    split; [lia|]. split; [|lia].
    rewrite H1, F2R_shift by lia. f_equal. lia.
Qed.

Lemma emin_le : emin <= 0 /\ emin <= emax - prec.
Proof. unfold SpecFloat.emin. lia. Qed.

(** Rounding a positive integer multiple of [2^e] that lies above a
    number of the format: the result is not below that number. *)
Lemma binary_round_lower (s : bool) (M : positive) (e : Z) (mF : positive) (eF : Z) :
  SpecFloat.bounded prec emax mF eF = true ->
  (F2R (Z.pos mF) eF <= F2R (Z.pos M) e)%R ->
  exists y, binary_round prec emax s M e = y
            /\ SFabove (F2R (Z.pos mF) eF) y
            /\ (y = S754_infinity s \/ exists m' e', y = S754_finite s m' e').
Proof.
  intros HF Hle. unfold binary_round.
  destruct (shl_align M e _) as [mz ez] eqn:Ealign.
  destruct (shl_align_spec _ _ _ _ _ Ealign) as (_ & Hval & _).
  rewrite <- Hval in Hle.
  destruct (binary_round_aux_steps s (Z.pos mz) ez loc_Exact (Pos2Z.is_nonneg mz))
    as (mrs1 & e1 & m2 & m3 & e3 & E1 & Hm2 & _ & He3 & Hm3 & Hfl3 & ->).
  destruct (shr_fexp_spec _ _ _ _ _ (Pos2Z.is_nonneg mz) E1) as (He1 & Hm1 & Hfl1 & _).
  assert (HFpos : (0 < F2R (Z.pos mF) eF)%R) by (apply F2R_pos; lia).
  assert (H1 : (F2R (Z.pos mF) eF <= F2R (shr_m mrs1) e1)%R).
  { apply floor_step_lower with (Z.pos mz) ez; try assumption; lia. }
  assert (H2 : (F2R (Z.pos mF) eF <= F2R m2 e1)%R).
  { pose proof (F2R_le (shr_m mrs1) m2 e1 ltac:(lia)). lra. }
  assert (Hm2pos : 0 < m2) by (apply F2R_pos_inv with e1; lra).
  assert (H3 : (F2R (Z.pos mF) eF <= F2R m3 e3)%R).
  { apply floor_step_lower with m2 e1; assumption. }
  assert (Hm3pos : 0 < m3) by (apply F2R_pos_inv with e3; lra).
  destruct m3 as [|p|p]; try lia.
  eexists. split; [reflexivity|].
  destruct (e3 <=? emax - prec); simpl; split; auto. right. eauto.
Qed.

(** Rounding a positive integer multiple of [2^e] that lies below a
    number of the format: the result is not above that number, and in
    particular finite. *)
Lemma binary_round_upper (s : bool) (M : positive) (e : Z) (mF : positive) (eF : Z) :
  SpecFloat.bounded prec emax mF eF = true ->
  (F2R (Z.pos M) e <= F2R (Z.pos mF) eF)%R ->
  exists y, binary_round prec emax s M e = y
            /\ SFbelow (F2R (Z.pos mF) eF) y
            /\ (y = S754_zero s \/ exists m' e', y = S754_finite s m' e').
Proof.
  intros HF Hle. unfold binary_round.
  destruct (shl_align M e _) as [mz ez] eqn:Ealign.
  destruct (shl_align_spec _ _ _ _ _ Ealign) as (Hez & Hval & Hdig).
  rewrite <- Hval in Hle.
  destruct (binary_round_aux_steps s (Z.pos mz) ez loc_Exact (Pos2Z.is_nonneg mz))
    as (mrs1 & e1 & m2 & m3 & e3 & E1 & Hm2 & Hup & He3 & Hm3 & Hfl3 & ->).
  destruct (shr_fexp_spec _ _ _ _ _ (Pos2Z.is_nonneg mz) E1)
    as (He1 & Hm1 & Hfl1 & Hinex).
  simpl Zdigits2 in He1. rewrite Hdig in He1.
  set (E := Z.pos (digits2_pos M) + e) in *.
  assert (He1' : e1 = fexp E) by lia. clear He1.
  destruct (bounded_spec _ _ HF) as (HdF & HeFmin & HeFmax).
  pose proof (bounded_lt _ _ HF) as HFlt.
  pose proof emin_le as [Hemin0 Hemin1].
  destruct (Zdigits2_F2R (Z.pos mz) ez ltac:(lia)) as [Hzlo _].
  simpl Zdigits2 in Hzlo.
  replace (Z.pos (digits2_pos mz) - 1 + ez) with (E - 1) in Hzlo by (unfold E; lia).
  (* the number rounded is below [2^emax], so its exponent is in range *)
  assert (HE : E <= emax).
  { destruct (Z_le_gt_dec E emax) as [|Hgt]; [assumption|].
    pose proof (bpow_le (prec + eF) (E - 1) ltac:(lia)). lra. }
  assert (H2 : (F2R m2 e1 <= F2R (Z.pos mF) eF)%R).
  { destruct (Z_le_gt_dec e1 eF) as [He1F | He1F].
    - apply round_up_upper with (Z.pos mz) ez loc_Exact mrs1
                                (F2R (Z.pos mz) ez);
        try assumption; try lia; try lra. congruence.
    - destruct (Z.eq_dec e1 ez) as [Hee | Hne].
      + rewrite Hee, Z.sub_diag in *. change (2 ^ 0) with 1 in *.
        assert (Hm1z : shr_m mrs1 = Z.pos mz) by lia.
        assert (m2 = Z.pos mz); [|now subst m2].
        destruct (Z.eq_dec m2 (shr_m mrs1 + 1)) as [Heq | Hneq]; [|lia].
        destruct (Hinex (Hup Heq)) as [Hl | Hlt]; [congruence | lia].
      + assert (e1 = E - prec) by (unfold SpecFloat.fexp in He1'; lia).
        pose proof (bpow_le (prec + eF) (E - 1) ltac:(lia)). lra. }
  assert (H3 : (F2R m3 e3 <= F2R m2 e1)%R).
  { replace e3 with (e1 + (e3 - e1)) by lia. rewrite <- F2R_shift by lia.
    apply F2R_le. lia. }
  destruct m3 as [|p|p]; try lia.
  - eexists. split; [reflexivity|]. simpl. auto.
  - assert (Hm2pos : 0 < m2).
    { assert (0 < 2 ^ (e3 - e1)) by (apply Z.pow_pos_nonneg; lia). nia. }
    assert (He3max : e3 <= emax - prec).
    { destruct (Z_le_gt_dec e3 (emax - prec)) as [|Hgt]; [assumption|].
      exfalso.
      assert (Hd2 : emax < Zdigits2 m2 + e1).
      { unfold SpecFloat.fexp in He3, He1'. lia. }
      destruct (Zdigits2_F2R m2 e1 Hm2pos) as [Hlo2 _].
      pose proof (bpow_le (prec + eF) (Zdigits2 m2 - 1 + e1) ltac:(lia)). lra. }
    apply Z.leb_le in He3max. rewrite He3max.
    eexists. split; [reflexivity|]. simpl. split; [lra | right; eauto].
Qed.

(** ** Division *)

Lemma new_location_exact (nb k : Z) : new_location nb k <> loc_Exact -> k <> 0.
Proof.
  unfold new_location, new_location_even, new_location_odd.
  intros H ->. destruct (Z.even nb); simpl in H; congruence.
Qed.

(** The quotient of a number by one that is not smaller lies in [0, 1]. *)
Lemma SFdiv_finite_le_1 (sx sy : bool) (mx my : positive) (ex ey : Z) :
  (F2R (Z.pos mx) ex <= F2R (Z.pos my) ey)%R ->
  SFbelow 1 (SFdiv prec emax (S754_finite sx mx ex) (S754_finite sy my ey)).
Proof.
  intros Hle. unfold SFdiv, SFdiv_core_binary.
  set (d1 := Zdigits2 (Z.pos mx)). set (d2 := Zdigits2 (Z.pos my)).
  set (ez := Z.min (fexp (d1 + ex - (d2 + ey))) (ex - ey)).
  set (sh := ex - ey - ez).
  assert (Hsh : 0 <= sh) by (unfold sh, ez; lia).
  set (m' := match sh with
             | 0 => Z.pos mx
             | Z.pos _ => Z.shiftl (Z.pos mx) sh
             | Z.neg _ => 0
             end).
  assert (Hm' : m' = Z.pos mx * 2 ^ sh).
  { unfold m'. destruct sh as [|p|p] eqn:Hs; try lia.
    now rewrite Z.shiftl_mul_pow2 by lia. }
  pose proof (Z_div_mod m' (Z.pos my) ltac:(lia)) as Hdiv.
  destruct (Z.div_eucl m' (Z.pos my)) as [q r].
  destruct Hdiv as [Hqr Hr].
  assert (Hpsh : 0 < 2 ^ sh) by (apply Z.pow_pos_nonneg; lia).
  assert (Hq : 0 <= q) by nia.
  pose proof emin_le as [Hemin0 Hemin1].
  pose proof (bpow_pos (ez + ey)) as Hbpos.
  set (Y := F2R (Z.pos my) ey) in *.
  set (X := F2R (Z.pos mx) ex) in *.
  assert (HYpos : (0 < Y)%R) by (apply F2R_pos; lia).
  (* [X = (q * my + r) * 2^(ez + ey)] *)
  assert (HX : X = F2R (Z.pos my * q + r) (ez + ey)).
  { unfold X. rewrite <- Hqr, Hm', F2R_shift by lia. f_equal. unfold sh. lia. }
  (* [q * 2^ez * Y = q * my * 2^(ez + ey)] *)
  assert (HqY : forall k, (F2R k ez * Y)%R = F2R (Z.pos my * k) (ez + ey)).
  { intros k. unfold Y, F2R. rewrite mult_IZR, bpow_add. ring. }
  set (v := (X / Y)%R).
  assert (Hv1 : (v <= 1)%R).
  { unfold v. apply Rmult_le_reg_r with Y; [assumption|].
    unfold Rdiv. rewrite Rmult_assoc, Rinv_l by lra. lra. }
  assert (Hqv : (F2R q ez <= v)%R).
  { unfold v. apply Rmult_le_reg_r with Y; [assumption|].
    unfold Rdiv. rewrite Rmult_assoc, Rinv_l, Rmult_1_r by lra.
    rewrite HqY, HX. apply F2R_le. lia. }
  assert (Hqv' : new_location (Z.pos my) r <> loc_Exact -> (F2R q ez < v)%R).
  { intros Hl. apply new_location_exact in Hl.
    unfold v. apply Rmult_lt_reg_r with Y; [assumption|].
    unfold Rdiv. rewrite Rmult_assoc, Rinv_l, Rmult_1_r by lra.
    rewrite HqY, HX. apply F2R_lt. lia. }
  destruct (binary_round_aux_steps (xorb sx sy) q ez
              (new_location (Z.pos my) r) Hq)
    as (mrs1 & e1 & m2 & m3 & e3 & E1 & Hm2 & Hup & He3 & Hm3 & Hfl3 & ->).
  destruct (shr_fexp_spec _ _ _ _ _ Hq E1) as (He1 & Hm1 & Hfl1 & _).
  (* all the exponents involved are at most 0 *)
  assert (Hez0 : ez <= 0).
  { destruct (Zdigits2_F2R (Z.pos mx) ex ltac:(lia)) as [Hxlo _].
    destruct (Zdigits2_F2R (Z.pos my) ey ltac:(lia)) as [_ Hyhi].
    fold d1 in Hxlo. fold d2 in Hyhi. fold X in Hxlo. fold Y in Hyhi.
    assert (d1 - 1 + ex < d2 + ey) by (apply bpow_lt_inv; lra).
    unfold ez, SpecFloat.fexp. lia. }
  assert (He10 : e1 <= 0).
  { destruct (Z.eq_dec q 0) as [-> | Hq0].
    - simpl Zdigits2 in He1. unfold SpecFloat.fexp in He1. lia.
    - destruct (Zdigits2_F2R q ez ltac:(lia)) as [Hqlo _].
      assert (Zdigits2 q - 1 + ez <= 0).
      { apply bpow_le_inv. rewrite bpow_0. lra. }
      unfold SpecFloat.fexp in He1. lia. }
  assert (H2 : (F2R m2 e1 <= F2R 1 0)%R).
  { apply round_up_upper with q ez (new_location (Z.pos my) r) mrs1 v;
      try assumption.
    unfold F2R. rewrite bpow_0. lra. }
  assert (H3 : (F2R m3 e3 <= F2R m2 e1)%R).
  { replace e3 with (e1 + (e3 - e1)) by lia. rewrite <- F2R_shift by lia.
    apply F2R_le. lia. }
  assert (H1 : F2R 1 0 = 1%R) by (unfold F2R; rewrite bpow_0; lra).
  destruct m3 as [|p|p]; try lia; [exact I|].
  assert (He30 : e3 <= emax - prec).
  { assert (e3 <= 0); [|lia].
    apply bpow_le_inv. rewrite bpow_0.
    assert (F2R 1 e3 <= F2R (Z.pos p) e3)%R by (apply F2R_le; lia).
    unfold F2R at 1 in H. lra. }
  apply Z.leb_le in He30. rewrite He30. simpl. lra.
Qed.

Lemma canonical_le_1 (m : positive) (e : Z) :
  SpecFloat.bounded prec emax m e = true ->
  (F2R (Z.pos m) e <= 1)%R ->
  e < 1 - prec \/ (e = 1 - prec /\ Z.pos m <= 2 ^ (prec - 1)).
Proof.
  intros Hb Hle.
  assert (Hcanon : SpecFloat.fexp prec emax (Z.pos (digits2_pos m) + e) = e).
  { unfold SpecFloat.bounded, canonical_mantissa in Hb.
    apply andb_true_iff in Hb. destruct Hb as [Hb _]. now apply Z.eqb_eq. }
  destruct (Zdigits2_F2R (Z.pos m) e ltac:(lia)) as [Hlo _]. simpl Zdigits2 in Hlo.
  assert (Hmag : Z.pos (digits2_pos m) - 1 + e <= 0).
  { apply bpow_le_inv. rewrite bpow_0. lra. }
  destruct (Z_lt_le_dec e (1 - prec)) as [|Hge]; [now left | right].
  assert (He : e = 1 - prec).
  { unfold SpecFloat.fexp, SpecFloat.emin in Hcanon. lia. }
  split; [assumption|].
  apply F2R_le_inv with e. rewrite He at 2.
  unfold F2R at 2. rewrite <- bpow_Z, <- bpow_add by lia.
  replace (prec - 1 + (1 - prec)) with 0 by ring. now rewrite bpow_0.
Qed.

Lemma SFadd_sub_quotient (x r : spec_float) :
  SFnonneg_finite prec emax x ->
  SFnonneg_finite prec emax r ->
  SFeqb (SFadd prec emax x r) (S754_zero false) = false ->
  SFbelow 1 (SFdiv prec emax (SFsub prec emax x r) (SFadd prec emax x r)).
Proof.
  destruct x as [sx|sx| |[|] mx ex], r as [sr|sr| |[|] mr er];
    try contradiction; intros Hx Hr Hguard.
  - (* both zero: the guard fails *)
    exfalso. destruct sx, sr; discriminate.
  - (* 0 and r *)
    apply SFdiv_finite_le_1; try assumption. lra.
  - (* x and 0 *)
    apply SFdiv_finite_le_1; try assumption. lra.
  - (* x and r *)
    clear Hguard. unfold SFadd, SFsub, cond_Zopp.
    set (ez := Z.min ex er).
    destruct (shl_align mx ex ez) as [ax ex'] eqn:Ex.
    destruct (shl_align mr er ez) as [ar er'] eqn:Er.
    destruct (shl_align_spec _ _ _ _ _ Ex) as (Hex' & Hvx & _).
    destruct (shl_align_spec _ _ _ _ _ Er) as (Her' & Hvr & _).
    assert (Hex : ex' = ez) by (unfold ez in *; lia).
    assert (Her : er' = ez) by (unfold ez in *; lia).
    clear Hex' Her'. subst ex' er'. simpl fst.
    set (X := F2R (Z.pos mx) ex) in *. set (Rr := F2R (Z.pos mr) er) in *.
    (* the denominator *)
    change (Z.pos ax + Z.pos ar) with (Z.pos (ax + ar)).
    unfold binary_normalize at 2.
    destruct (binary_round_lower false (ax + ar) ez mx ex Hx)
      as (d & Hd & HdX & Hdsign).
    { fold X. rewrite <- Hvx. apply F2R_le. lia. }
    destruct (binary_round_lower false (ax + ar) ez mr er Hr)
      as (d' & Hd' & HdR & _).
    { fold Rr. rewrite <- Hvr. apply F2R_le. lia. }
    rewrite Hd in Hd'. subst d'. rewrite Hd. fold X in HdX. fold Rr in HdR.
    (* the numerator *)
    assert (Hn : exists n, binary_normalize prec emax (Z.pos ax - Z.pos ar) ez false = n
                           /\ (SFbelow X n \/ SFbelow Rr n)
                           /\ ((exists s, n = S754_zero s)
                               \/ exists s m e, n = S754_finite s m e)).
    { destruct (Z.pos ax - Z.pos ar) as [|p|p] eqn:Hsub; unfold binary_normalize.
      - eexists. split; [reflexivity|]. split; [left; exact I | left; eauto].
      - destruct (binary_round_upper false p ez mx ex Hx)
          as (n & Hn & Hbelow & Hsign).
        { fold X. rewrite <- Hvx. apply F2R_le. lia. }
        exists n. split; [assumption|]. split; [now left|].
        destruct Hsign as [-> | (m' & e' & ->)]; [left | right]; eauto.
      - destruct (binary_round_upper true p ez mr er Hr)
          as (n & Hn & Hbelow & Hsign).
        { fold Rr. rewrite <- Hvr. apply F2R_le. lia. }
        exists n. split; [assumption|]. split; [now right|].
        destruct Hsign as [-> | (m' & e' & ->)]; [left | right]; eauto. }
    destruct Hn as (n & -> & Hbelow & Hnshape).
    destruct Hnshape as [(s & ->) | (s & m & e & ->)];
      destruct Hdsign as [-> | (md & ed & ->)]; try exact I.
    apply SFdiv_finite_le_1; try assumption.
    simpl in HdX, HdR, Hbelow. destruct Hbelow; lra.
Qed.


End Rounding.

(** ** The quotient of the reducers, in binary64 *)

Lemma prec_pos : 0 < prec.
Proof. reflexivity. Qed.

Lemma prec_lt_emax : prec < emax.
Proof. reflexivity. Qed.

(** Comparing with the numbers [p * 2^e0] and [- p * 2^e0]. *)
Lemma SFleb_same_exponent (s : bool) (m p : positive) (e : Z) :
  (m <= p)%positive ->
  SFleb (S754_finite s m e) (S754_finite false p e) = true
  /\ SFleb (S754_finite true p e) (S754_finite s m e) = true.
Proof.
  intros Hle. unfold SFleb, SFcompare. rewrite Z.compare_refl.
  change (Pos.compare_cont Eq m p) with (Pos.compare m p).
  change (Pos.compare_cont Eq p m) with (Pos.compare p m).
  destruct s; (split; [|reflexivity]) || (split; [reflexivity|]).
  - destruct (Pos.compare_spec p m); first [lia | reflexivity].
  - destruct (Pos.compare_spec m p); first [lia | reflexivity].
Qed.

Lemma SFleb_lower_exponent (s : bool) (m p : positive) (e e0 : Z) :
  e < e0 ->
  SFleb (S754_finite s m e) (S754_finite false p e0) = true
  /\ SFleb (S754_finite true p e0) (S754_finite s m e) = true.
Proof.
  intros Hlt. unfold SFleb, SFcompare.
  destruct s; (split; [|reflexivity]) || (split; [reflexivity|]).
  - destruct (Z.compare_spec e0 e); first [lia | reflexivity].
  - destruct (Z.compare_spec e e0); first [lia | reflexivity].
Qed.

(** A number of the format of magnitude at most 1 lies between
    [- p * 2^(1 - prec)] and [p * 2^(1 - prec)], where [p = 2^(prec - 1)]:
    between -1 and 1. *)
Lemma SFleb_unit (p : positive) (v : spec_float) :
  Z.pos p = 2 ^ (prec - 1) ->
  valid_binary v = true ->
  SFbelow 1 v ->
  SFleb v (S754_finite false p (1 - prec)) = true
  /\ SFleb (S754_finite true p (1 - prec)) v = true.
Proof.
  intros Hp.
  destruct v as [s|s| |s m e]; try contradiction; intros Hv Hb.
  - split; reflexivity.
  - simpl in Hv, Hb.
    destruct (canonical_le_1 prec emax prec_pos prec_lt_emax m e Hv Hb)
      as [Hlt | [-> Hm]].
    + apply SFleb_lower_exponent. exact Hlt.
    + apply SFleb_same_exponent. rewrite <- Hp in Hm. clear -Hm. lia.
Qed.

Lemma SFleb_one (v : spec_float) :
  valid_binary v = true ->
  SFbelow 1 v ->
  SFleb v (Prim2SF 1) = true /\ SFleb (Prim2SF (-1)) v = true.
Proof.
  apply (SFleb_unit 4503599627370496). reflexivity.
Qed.

Lemma nonneg_finite_spec (x : float) :
  (0 <=? x)%float = true ->
  (x <? infinity)%float = true ->
  SFnonneg_finite prec emax (Prim2SF x).
Proof.
  rewrite leb_spec, ltb_spec.
  change (Prim2SF 0) with (S754_zero false).
  change (Prim2SF infinity) with (S754_infinity false).
  pose proof (Prim2SF_valid x) as Hv.
  destruct (Prim2SF x) as [s|s| |s m e]; unfold SFleb, SFltb, SFcompare; simpl.
  - trivial.
  - destruct s; discriminate.
  - discriminate.
  - destruct s; [discriminate|]. intros _ _. exact Hv.
Qed.

Lemma ratio_in_range (r x : float) :
  (0 <=? r)%float = true -> (r <? infinity)%float = true ->
  (0 <=? x)%float = true -> (x <? infinity)%float = true ->
  negb (x + r =? 0)%float = true ->
  (-1 <=? (x - r) / (x + r))%float = true
  /\ ((x - r) / (x + r) <=? 1)%float = true.
Proof.
  intros Hr0 Hr1 Hx0 Hx1 Hguard.
  apply negb_true_iff in Hguard. rewrite eqb_spec, add_spec in Hguard.
  change (Prim2SF 0) with (S754_zero false) in Hguard.
  rewrite !leb_spec.
  pose proof (Prim2SF_valid ((x - r) / (x + r))) as Hv.
  rewrite div_spec, sub_spec, add_spec in *.
  apply and_comm. apply SFleb_one; [exact Hv|].
  apply SFadd_sub_quotient; try assumption.
  - apply prec_pos.
  - apply prec_lt_emax.
  - now apply nonneg_finite_spec.
  - now apply nonneg_finite_spec.
Qed.


(** ** The range of the per-pixel values *)

Lemma body_valid (red nir : JS.TypedArray) (st : Acc) (i : nat) (r x : float) :
  JS.get red i = Some r ->
  JS.get nir i = Some x ->
  JS.strict_neq (x + r) 0 = true ->
  Service.body red nir st i
  = {| ndvi := ndvi st ++ [((x - r) / (x + r))%float];
       sum := (sum st + (x - r) / (x + r))%float;
       count := count st + 1 |}.
Proof.
  intros Hr Hx Hnz.
  unfold Service.body, JS.plus, JS.minus.
  rewrite Hr, Hx. simpl JS.ToNumber. rewrite Hnz. reflexivity.
Qed.

(** C5, the claim as written fails: +Infinity is a non-negative number a
    raster can hold; with both bands at +Infinity the denominator is
    +Infinity, not zero, and the value computed is NaN, which lies in no
    interval. *)
Lemma range_fails_at_infinity :
  let r := infinity in
  let x := infinity in
  (0 <=? r)%float = true
  /\ (0 <=? x)%float = true
  /\ JS.strict_neq (x + r) 0 = true
  /\ ndvi (Service.reduce [r] [x]) = [((x - r) / (x + r))%float]
  /\ (-1 <=? (x - r) / (x + r))%float = false
  /\ ((x - r) / (x + r) <=? 1)%float = false.
Proof.
  vm_compute. repeat split; reflexivity.
Qed.

(** C5, amended.  For a pixel the loop visits, with finite non-negative
    red and NIR values and a nonzero denominator, the value computed in
    binary64, [(nir - red) / (nir + red)], is the one pushed to the
    per-pixel output and added to the sum, by both reducers, and it lies
    in [-1, 1]. *)
Theorem ndvi_in_range (red nir : JS.TypedArray) (i : nat) (r x : float) :
  JS.get red i = Some r ->
  JS.get nir i = Some x ->
  Z.of_nat i < Service.maxPixels ->
  (0 <=? r)%float = true -> (r <? infinity)%float = true ->
  (0 <=? x)%float = true -> (x <? infinity)%float = true ->
  JS.strict_neq (x + r) 0 = true ->
  let val := ((x - r) / (x + r))%float in
  nth_error (ndvi (Service.reduce red nir)) i = Some val
  /\ nth_error (ndvi (Route.reduce red nir)) i = Some val
  /\ sum (Service.loop red nir (S i)) = (sum (Service.loop red nir i) + val)%float
  /\ (-1 <=? val)%float = true
  /\ (val <=? 1)%float = true.
Proof.
  intros Hr Hx Hcap Hr0 Hr1 Hx0 Hx1 Hnz val.
  assert (Hstep : Service.loop red nir (S i)
                  = {| ndvi := ndvi (Service.loop red nir i) ++ [val];
                       sum := (sum (Service.loop red nir i) + val)%float;
                       count := count (Service.loop red nir i) + 1 |}).
  { rewrite loop_S. now apply body_valid. }
  assert (Hnth : nth_error (ndvi (Service.reduce red nir)) i = Some val).
  { unfold Service.reduce.
    rewrite loop_nth by (now apply index_visited with r).
    rewrite Hstep. cbn [ndvi].
    rewrite nth_error_app2; rewrite loop_length; [|lia].
    now rewrite Nat.sub_diag. }
  change (Route.reduce red nir) with (Service.reduce red nir).
  rewrite Hstep. cbn [sum].
  repeat split; try assumption; now apply ratio_in_range.
Qed.

Lemma ndvi_in_range_witness :
  let val := ((300 - 100) / (300 + 100))%float in
  nth_error (ndvi (Service.reduce [0; 100]%float [0; 300]%float)) 1 = Some val
  /\ (-1 <=? val)%float = true
  /\ (val <=? 1)%float = true.
Proof.
  intros val.
  destruct (ndvi_in_range [0; 100]%float [0; 300]%float 1 100 300
              eq_refl eq_refl eq_refl eq_refl eq_refl eq_refl eq_refl eq_refl)
    as (H1 & _ & _ & H2 & H3).
  repeat split; assumption.
Defined.

(** * Properties of the rest of the backend *)

(** ** The loop in closed form *)

Lemma body_pixel (red nir : JS.TypedArray) (st : Acc) (i : nat) :
  Service.body red nir st i
  = {| ndvi := ndvi st ++ [pixel_value red nir i];
       sum := if valid_pixel red nir i
              then (sum st + pixel_value red nir i)%float else sum st;
       count := if valid_pixel red nir i then count st + 1 else count st |}.
Proof.
  unfold Service.body, pixel_value, valid_pixel.
  destruct (JS.strict_neq _ _); reflexivity.
Qed.

Lemma loop_closed_form (red nir : JS.TypedArray) (k : nat) :
  ndvi (Service.loop red nir k) = map (pixel_value red nir) (seq 0 k)
  /\ count (Service.loop red nir k)
     = Z.of_nat (List.length (filter (valid_pixel red nir) (seq 0 k))).
Proof.
  induction k as [|k [IHn IHc]]; [split; reflexivity|].
  rewrite loop_S, body_pixel, seq_S, map_app, filter_app, length_app.
  cbn [ndvi count]. rewrite IHn, IHc. simpl.
  split; [reflexivity|].
  destruct (valid_pixel red nir k); simpl; lia.
Qed.

(** X1.  The per-pixel output is the list of the pixel values of the
    indices [0 .. n-1], and the count is the number of those indices
    whose denominator is not zero; so the count is never negative and
    never more than the number of pixels processed. *)
Theorem reduce_closed_form (red nir : JS.TypedArray) :
  ndvi (Service.reduce red nir)
  = map (pixel_value red nir) (seq 0 (iterations red))
  /\ count (Service.reduce red nir)
     = Z.of_nat (List.length (filter (valid_pixel red nir) (seq 0 (iterations red))))
  /\ 0 <= count (Service.reduce red nir)
       <= totalPixelsProcessed (Service.reduce red nir)
  /\ Route.reduce red nir = Service.reduce red nir.
Proof.
  unfold Service.reduce, iterations.
  destruct (loop_closed_form red nir (Z.to_nat (Service.bound red))) as [Hn Hc].
  repeat split; try assumption.
  - lia.
  - unfold totalPixelsProcessed, JS.length. rewrite loop_length, Hc.
    pose proof (filter_length_le (valid_pixel red nir)
                  (seq 0 (Z.to_nat (Service.bound red)))) as Hle.
    rewrite length_seq in Hle. lia.
Qed.

(** ** Nothing past the bound is read *)

Lemma body_ext (red nir red' nir' : JS.TypedArray) (st : Acc) (i : nat) :
  JS.get red i = JS.get red' i ->
  JS.get nir i = JS.get nir' i ->
  Service.body red nir st i = Service.body red' nir' st i.
Proof.
  intros Hr Hn. unfold Service.body. now rewrite Hr, Hn.
Qed.

Lemma loop_ext (red nir red' nir' : JS.TypedArray) (k : nat) :
  (forall i, (i < k)%nat ->
             JS.get red i = JS.get red' i /\ JS.get nir i = JS.get nir' i) ->
  Service.loop red nir k = Service.loop red' nir' k.
Proof.
  induction k as [|k IH]; intros H; [reflexivity|].
  rewrite !loop_S, IH by (intros i Hi; apply H; lia).
  apply body_ext; apply H; lia.
Qed.

Lemma bound_firstn (red : JS.TypedArray) :
  Service.bound (firstn (Z.to_nat Service.maxPixels) red) = Service.bound red.
Proof.
  unfold Service.bound, JS.Math_min, JS.length. rewrite length_firstn.
  assert (0 <= Service.maxPixels) by (unfold Service.maxPixels; lia).
  lia.
Qed.

(** X2.  The reducers look at no pixel from index [maxPixels] on: cutting
    both bands down to their first [maxPixels] entries changes nothing of
    the result, and more generally two pairs of bands that agree on the
    indices below the bound give the same result. *)
Theorem pixels_past_the_cap_ignored (redImage nirImage : Image) :
  let cut := firstn (Z.to_nat Service.maxPixels) in
  Service.reduce (readRasters0 redImage) (readRasters0 nirImage)
  = Service.reduce (cut (readRasters0 redImage)) (cut (readRasters0 nirImage))
  /\ Service.calculateNdvi redImage nirImage
     = Service.calculateNdvi
         (img (cut (readRasters0 redImage)) (getWidth redImage) (getHeight redImage))
         (img (cut (readRasters0 nirImage)) (getWidth nirImage) (getHeight nirImage))
  /\ (forall red' nir' : JS.TypedArray,
        Service.bound red' = Service.bound (readRasters0 redImage) ->
        (forall i, (i < iterations (readRasters0 redImage))%nat ->
                   JS.get (readRasters0 redImage) i = JS.get red' i
                   /\ JS.get (readRasters0 nirImage) i = JS.get nir' i) ->
        Service.reduce (readRasters0 redImage) (readRasters0 nirImage)
        = Service.reduce red' nir').
Proof.
  intros cut.
  assert (Hext : forall red nir red' nir' : JS.TypedArray,
             Service.bound red' = Service.bound red ->
             (forall i, (i < iterations red)%nat ->
                        JS.get red i = JS.get red' i /\ JS.get nir i = JS.get nir' i) ->
             Service.reduce red nir = Service.reduce red' nir').
  { intros red nir red' nir' Hb H. unfold Service.reduce. rewrite Hb.
    apply loop_ext. intros i Hi. apply H. exact Hi. }
  assert (Hcut : Service.reduce (readRasters0 redImage) (readRasters0 nirImage)
                 = Service.reduce (cut (readRasters0 redImage))
                                  (cut (readRasters0 nirImage))).
  { apply Hext; [apply bound_firstn|].
    intros i Hi. unfold cut, JS.get. rewrite !nth_error_firstn.
    assert (Hlt : (i < Z.to_nat Service.maxPixels)%nat).
    { unfold iterations, Service.bound, JS.Math_min in Hi. lia. }
    apply Nat.ltb_lt in Hlt. rewrite Hlt. split; reflexivity. }
  split; [exact Hcut|]. split; [|intros red' nir'; apply Hext].
  unfold Service.calculateNdvi. cbn [readRasters0 getWidth getHeight img].
  now rewrite <- Hcut.
Qed.

Lemma pixels_past_the_cap_ignored_witness :
  let red := [100; 0; 50]%float in
  let nir := [300; 0; 50]%float in
  Service.reduce red nir = Service.reduce red (nir ++ [7]%float).
Proof.
  intros red nir.
  apply (proj2 (proj2 (pixels_past_the_cap_ignored (img red 3 1) (img nir 3 1)))).
  - reflexivity.
  - intros i Hi.
    assert (H : (i < 3)%nat) by exact Hi.
    destruct i as [|[|[|i]]]; try lia; split; reflexivity.
Defined.

(** ** NaN *)

Lemma is_nan_eq (x : float) : is_nan x = true -> x = nan.
Proof.
  unfold is_nan. rewrite eqb_spec. intros H. apply negb_true_iff in H.
  apply Prim2SF_inj. change (Prim2SF nan) with S754_nan.
  destruct (Prim2SF x) eqn:E; try reflexivity;
    rewrite SFeqb_refl in H by congruence; discriminate.
Qed.

Lemma add_nan_l (x : float) : (nan + x)%float = nan.
Proof. apply Prim2SF_inj. rewrite add_spec. reflexivity. Qed.

Lemma add_nan_r (x : float) : (x + nan)%float = nan.
Proof. rewrite add_comm. apply add_nan_l. Qed.

Lemma div_nan_l (x : float) : (nan / x)%float = nan.
Proof. apply Prim2SF_inj. rewrite div_spec. reflexivity. Qed.

Lemma div_nan_r (x : float) : (x / nan)%float = nan.
Proof.
  apply Prim2SF_inj. rewrite div_spec.
  change (Prim2SF nan) with S754_nan. now destruct (Prim2SF x).
Qed.

(** A pixel one of whose operands is NaN is a valid pixel of value NaN. *)
Lemma pixel_nan (red nir : JS.TypedArray) (i : nat) :
  is_nan (JS.ToNumber (JS.get red i)) = true
  \/ is_nan (JS.ToNumber (JS.get nir i)) = true ->
  valid_pixel red nir i = true /\ pixel_value red nir i = nan.
Proof.
  intros H.
  assert (Hden : JS.plus (JS.get nir i) (JS.get red i) = nan).
  { unfold JS.plus. destruct H as [H | H]; apply is_nan_eq in H; rewrite H.
    - apply add_nan_r.
    - apply add_nan_l. }
  unfold pixel_value, valid_pixel. rewrite Hden.
  split; [reflexivity|]. change (JS.strict_neq nan 0) with true. cbv iota.
  apply div_nan_r.
Qed.

(** Once NaN, the sum stays NaN. *)
Lemma sum_stays_nan (red nir : JS.TypedArray) (k d : nat) :
  sum (Service.loop red nir k) = nan ->
  sum (Service.loop red nir (k + d)) = nan.
Proof.
  intros Hk. induction d as [|d IH].
  - now rewrite Nat.add_0_r.
  - replace (k + S d)%nat with (S (k + d)) by lia.
    rewrite loop_S, body_pixel. cbn [sum].
    destruct (valid_pixel red nir (k + d)); [|exact IH].
    rewrite IH. apply add_nan_l.
Qed.

Lemma nan_poisons (redImage nirImage : Image) (i : nat) :
  let red := readRasters0 redImage in
  let nir := readRasters0 nirImage in
  (i < iterations red)%nat ->
  is_nan (JS.ToNumber (JS.get red i)) = true
  \/ is_nan (JS.ToNumber (JS.get nir i)) = true ->
  nth_error (ndvi (Service.reduce red nir)) i = Some nan
  /\ sum (Service.reduce red nir) = nan
  /\ meanNdvi (Service.calculateNdvi redImage nirImage) = JS.Text "NaN".
Proof.
  intros red nir Hi Hnan.
  destruct (pixel_nan red nir i Hnan) as [Hvalid Hval].
  assert (Hsum : sum (Service.reduce red nir) = nan).
  { unfold Service.reduce. fold (iterations red).
    replace (iterations red) with (S i + (iterations red - S i))%nat by lia.
    apply sum_stays_nan.
    rewrite loop_S, body_pixel. cbn [sum]. rewrite Hvalid, Hval. apply add_nan_r. }
  split; [|split; [exact Hsum|]].
  - unfold Service.reduce. fold (iterations red).
    destruct (loop_closed_form red nir (iterations red)) as [-> _].
    rewrite nth_error_map, nth_error_seq.
    apply Nat.ltb_lt in Hi. rewrite Hi. simpl. now rewrite Hval.
  - unfold Service.calculateNdvi. cbn [meanNdvi]. fold red nir.
    rewrite Hsum, div_nan_l. reflexivity.
Qed.

(** X3.  A NaN in either band at a processed index (the usual no-data
    marker of floating-point rasters) makes that pixel's value NaN, the
    sum NaN, and the mean the text ["NaN"], in a status-200 answer of the
    controller and of the route. *)
Theorem nan_pixel_gives_NaN_mean (redImage nirImage : Image) (i : nat) (r x : float) :
  JS.get (readRasters0 redImage) i = Some r ->
  JS.get (readRasters0 nirImage) i = Some x ->
  Z.of_nat i < Service.maxPixels ->
  is_nan r = true \/ is_nan x = true ->
  nth_error (ndvi (Service.reduce (readRasters0 redImage) (readRasters0 nirImage))) i
  = Some nan
  /\ meanNdvi (Service.calculateNdvi redImage nirImage) = JS.Text "NaN"
  /\ (exists result, getNdviData (Some (redImage, nirImage)) = Json200 result
                     /\ Route.handler (Some (redImage, nirImage)) = Json200 result
                     /\ meanNdvi result = JS.Text "NaN").
Proof.
  intros Hr Hx Hcap Hnan.
  destruct (nan_poisons redImage nirImage i) as (Hnth & _ & Hmean).
  - unfold iterations. now apply index_visited with r.
  - now rewrite Hr, Hx.
  - split; [exact Hnth|]. split; [exact Hmean|].
    exists (Service.calculateNdvi redImage nirImage).
    split; [reflexivity|]. split; [reflexivity | exact Hmean].
Qed.

Lemma nan_pixel_gives_NaN_mean_witness :
  meanNdvi (Service.calculateNdvi (img [100; 50]%float 2 1) (img [300; nan]%float 2 1))
  = JS.Text "NaN".
Proof.
  apply (nan_pixel_gives_NaN_mean (img [100; 50]%float 2 1) (img [300; nan]%float 2 1)
           1 50 nan eq_refl eq_refl eq_refl (or_intror eq_refl)).
Defined.

(** X4.  A NIR band shorter than the number of pixels processed makes the
    mean the text ["NaN"]: the first pixel past its end reads
    [undefined], which counts as a valid pixel of value NaN. *)
Theorem short_nir_gives_NaN_mean (redImage nirImage : Image) :
  JS.length (readRasters0 nirImage)
  < Z.min (JS.length (readRasters0 redImage)) Service.maxPixels ->
  meanNdvi (Service.calculateNdvi redImage nirImage) = JS.Text "NaN"
  /\ nth_error (ndvi (Service.reduce (readRasters0 redImage) (readRasters0 nirImage)))
       (List.length (readRasters0 nirImage)) = Some nan
  /\ (exists result, getNdviData (Some (redImage, nirImage)) = Json200 result
                     /\ Route.handler (Some (redImage, nirImage)) = Json200 result
                     /\ meanNdvi result = JS.Text "NaN").
Proof.
  intros Hshort.
  destruct (nan_poisons redImage nirImage (List.length (readRasters0 nirImage)))
    as (Hnth & _ & Hmean).
  - unfold iterations, Service.bound, JS.Math_min. unfold JS.length in Hshort at 1. lia.
  - right. unfold JS.get.
    rewrite (proj2 (nth_error_None _ _)) by lia. reflexivity.
  - split; [exact Hmean|]. split; [exact Hnth|].
    exists (Service.calculateNdvi redImage nirImage).
    split; [reflexivity|]. split; [reflexivity | exact Hmean].
Qed.

Lemma short_nir_gives_NaN_mean_witness :
  meanNdvi (Service.calculateNdvi (img [1; 2; 3; 4; 5]%float 5 1) (img [1; 2; 3]%float 3 1))
  = JS.Text "NaN".
Proof.
  apply (short_nir_gives_NaN_mean (img [1; 2; 3; 4; 5]%float 5 1) (img [1; 2; 3]%float 3 1)).
  vm_compute. reflexivity.
Defined.

(** ** Sums of bounded numbers *)

Section Sums.

Variables prec emax : Z.
Hypothesis Hprec : 0 < prec.
Hypothesis Hemax : prec < emax.

(** Positive integers below [2^prec] are numbers of the format. *)
Lemma int_representable (p : positive) :
  Z.pos p < 2 ^ prec ->
  exists (mF : positive) (eF : Z),
    SpecFloat.bounded prec emax mF eF = true
    /\ F2R (Z.pos mF) eF = IZR (Z.pos p).
Proof.
  intros Hp.
  destruct (digits2_pos_bounds p) as [Hlo _].
  assert (Hd : Z.pos (digits2_pos p) <= prec).
  { assert (Z.pos (digits2_pos p) - 1 < prec); [|lia].
    apply (Z.pow_lt_mono_r_iff 2); lia. }
  destruct (shl_align p 0 (SpecFloat.fexp prec emax (Z.pos (digits2_pos p) + 0)))
    as [mz ez] eqn:E.
  destruct (shl_align_spec _ _ _ _ _ E) as (Hez & Hval & Hdig).
  destruct (emin_le prec emax Hprec Hemax) as [Hemin0 Hemin1].
  exists mz, ez. split.
  - unfold SpecFloat.bounded, canonical_mantissa.
    apply andb_true_iff. split.
    + apply Z.eqb_eq. rewrite Hdig. unfold SpecFloat.fexp in *. lia.
    + apply Z.leb_le. unfold SpecFloat.fexp in *. lia.
  - rewrite Hval. unfold F2R. rewrite bpow_0. ring.
Qed.

(** Such an integer is converted exactly. *)
Lemma binary_round_int (p : positive) :
  Z.pos p < 2 ^ prec ->
  exists (m : positive) (e : Z),
    binary_round prec emax false p 0 = S754_finite false m e
    /\ F2R (Z.pos m) e = IZR (Z.pos p).
Proof.
  intros Hp.
  destruct (int_representable p Hp) as (mF & eF & HF & HFv).
  assert (Hpv : F2R (Z.pos p) 0 = IZR (Z.pos p)).
  { unfold F2R. rewrite bpow_0. ring. }
  destruct (binary_round_lower prec emax Hprec false p 0 mF eF HF) as (y & Hy & Habove & _).
  { rewrite HFv, Hpv. lra. }
  destruct (binary_round_upper prec emax Hprec Hemax false p 0 mF eF HF)
    as (y' & Hy' & Hbelow & Hshape).
  { rewrite HFv, Hpv. lra. }
  rewrite Hy in Hy'. subst y'.
  destruct Hshape as [-> | (m & e & ->)]; [contradiction|].
  exists m, e. split; [exact Hy|]. simpl in Habove, Hbelow. lra.
Qed.

(** Adding a number of magnitude at most [A] and one of magnitude at
    most [B] gives a number of magnitude at most [A + B], as long as
    [A + B] is a number of the format. *)
Lemma SFadd_below (A B : R) (x y : spec_float) (mF : positive) (eF : Z) :
  (0 <= A)%R -> (0 <= B)%R ->
  SFbelow A x -> SFbelow B y ->
  SpecFloat.bounded prec emax mF eF = true ->
  (A + B)%R = F2R (Z.pos mF) eF ->
  SFbelow (A + B) (SFadd prec emax x y).
Proof.
  intros HA HB Hx Hy HF HFv.
  destruct x as [sx|sx| |sx mx ex], y as [sy|sy| |sy my ey]; try contradiction.
  - destruct sx, sy; exact I.
  - simpl in *. lra.
  - simpl in *. lra.
  - simpl in Hx, Hy. unfold SFadd.
    set (ez := Z.min ex ey).
    destruct (shl_align mx ex ez) as [ax ex'] eqn:Ex.
    destruct (shl_align my ey ez) as [ay ey'] eqn:Ey.
    destruct (shl_align_spec _ _ _ _ _ Ex) as (Hex' & Hvx & _).
    destruct (shl_align_spec _ _ _ _ _ Ey) as (Hey' & Hvy & _).
    assert (Hex : ex' = ez) by (unfold ez in *; lia).
    assert (Hey : ey' = ez) by (unfold ez in *; lia).
    clear Hex' Hey'. subst ex' ey'. simpl fst.
    set (M := cond_Zopp sx (Z.pos ax) + cond_Zopp sy (Z.pos ay)).
    assert (HM : Z.abs M <= Z.pos ax + Z.pos ay).
    { unfold M. destruct sx, sy; simpl cond_Zopp; lia. }
    assert (Hsum : (F2R (Z.pos ax + Z.pos ay) ez <= F2R (Z.pos mF) eF)%R).
    { rewrite <- HFv. unfold F2R in *. rewrite plus_IZR. lra. }
    destruct M as [|p|p] eqn:EM; unfold binary_normalize.
    + exact I.
    + destruct (binary_round_upper prec emax Hprec Hemax false p ez mF eF HF)
        as (r & -> & Hbelow & _); [|now rewrite HFv].
      pose proof (F2R_le (Z.pos p) (Z.pos ax + Z.pos ay) ez ltac:(lia)). lra.
    + destruct (binary_round_upper prec emax Hprec Hemax true p ez mF eF HF)
        as (r & -> & Hbelow & _); [|now rewrite HFv].
      pose proof (F2R_le (Z.pos p) (Z.pos ax + Z.pos ay) ez ltac:(lia)). lra.
Qed.

(** A quotient by a number that is not smaller in magnitude. *)
Lemma SFdiv_below_1 (x : spec_float) (sy : bool) (my : positive) (ey : Z) :
  SFbelow (F2R (Z.pos my) ey) x ->
  SFbelow 1 (SFdiv prec emax x (S754_finite sy my ey)).
Proof.
  destruct x as [sx|sx| |sx mx ex]; try contradiction; intros Hx.
  - exact I.
  - now apply SFdiv_finite_le_1.
Qed.

End Sums.

(** ** The mean of finite non-negative bands *)

Lemma finite_nonneg_spec (x : float) :
  finite_nonneg x = true -> SFnonneg_finite prec emax (Prim2SF x).
Proof.
  unfold finite_nonneg. intros H. apply andb_true_iff in H.
  destruct H. now apply nonneg_finite_spec.
Qed.

(** A valid pixel of finite non-negative operands has a value of
    magnitude at most 1. *)
Lemma pixel_below_1 (red nir : JS.TypedArray) (i : nat) (r x : float) :
  JS.get red i = Some r ->
  JS.get nir i = Some x ->
  finite_nonneg r = true ->
  finite_nonneg x = true ->
  valid_pixel red nir i = true ->
  SFbelow 1 (Prim2SF (pixel_value red nir i)).
Proof.
  intros Hr Hx Hfr Hfx Hvalid.
  unfold pixel_value. rewrite Hvalid.
  unfold valid_pixel, JS.strict_neq in Hvalid. apply negb_true_iff in Hvalid.
  revert Hvalid. rewrite Hr, Hx. unfold JS.plus, JS.minus, JS.ToNumber.
  rewrite eqb_spec, div_spec, sub_spec, add_spec.
  change (Prim2SF 0) with (S754_zero false). intros Hguard.
  apply SFadd_sub_quotient; try assumption.
  - apply prec_pos.
  - apply prec_lt_emax.
  - now apply finite_nonneg_spec.
  - now apply finite_nonneg_spec.
Qed.

Lemma small_count_representable (c : Z) :
  0 < c <= 1000001 ->
  exists (mF : positive) (eF : Z),
    SpecFloat.bounded prec emax mF eF = true /\ F2R (Z.pos mF) eF = IZR c.
Proof.
  intros Hc. destruct c as [|p|p]; try lia.
  apply (int_representable prec emax prec_pos prec_lt_emax).
  assert (1000001 < 2 ^ prec) by reflexivity. lia.
Qed.

(** The invariant of the loop on such bands: the sum is finite, of
    magnitude at most the count. *)
Lemma sum_below_count (red nir : JS.TypedArray) (k : nat) :
  (forall i, (i < k)%nat ->
     exists r x, JS.get red i = Some r /\ JS.get nir i = Some x
                 /\ finite_nonneg r = true /\ finite_nonneg x = true) ->
  Z.of_nat k <= 1000000 ->
  0 <= count (Service.loop red nir k) <= Z.of_nat k
  /\ SFbelow (IZR (count (Service.loop red nir k))) (Prim2SF (sum (Service.loop red nir k))).
Proof.
  induction k as [|k IH]; intros Hin Hk.
  - split; [simpl; lia | exact I].
  - destruct IH as [Hc Hs]; [intros i Hi; apply Hin; lia | lia |].
    rewrite loop_S, body_pixel. cbn [count sum].
    destruct (valid_pixel red nir k) eqn:Hvalid; [|split; [lia | exact Hs]].
    split; [lia|].
    destruct (Hin k ltac:(lia)) as (r & x & Hr & Hx & Hfr & Hfx).
    pose proof (pixel_below_1 red nir k r x Hr Hx Hfr Hfx Hvalid) as Hv.
    destruct (small_count_representable (count (Service.loop red nir k) + 1) ltac:(lia))
      as (mF & eF & HF & HFv).
    rewrite add_spec, plus_IZR.
    apply (SFadd_below prec emax prec_pos prec_lt_emax) with mF eF; try assumption.
    + apply IZR_le. lia.
    + lra.
    + now rewrite HFv, plus_IZR.
Qed.

(** The count, as a number. *)
Lemma number_of_count_spec (c : Z) :
  0 < c <= 1000000 ->
  exists (m : positive) (e : Z),
    Prim2SF (number_of_count c) = S754_finite false m e
    /\ F2R (Z.pos m) e = IZR c.
Proof.
  intros Hc. unfold number_of_count.
  rewrite of_uint63_spec, Uint63.of_Z_spec.
  assert (Hwb : 1000000 < Uint63Axioms.wB) by reflexivity.
  rewrite Z.mod_small by lia.
  destruct c as [|p|p]; try lia.
  apply (binary_round_int prec emax prec_pos prec_lt_emax).
  assert (1000000 < 2 ^ prec) by reflexivity. lia.
Qed.

Lemma has_point_app (a b : string) : has_point (a ++ "." ++ b) = true.
Proof.
  induction a as [|c a IH]; [reflexivity|].
  simpl. destruct (Ascii.eqb c "."); [reflexivity | exact IH].
Qed.

(** The text of a number of magnitude at most 1 is a decimal numeral. *)
Lemma toFixed_below_1 (x : float) :
  SFbelow 1 (Prim2SF x) ->
  exists s, JS.toFixed x 4 = JS.Text s /\ has_point s = true.
Proof.
  unfold JS.toFixed.
  destruct (Prim2SF x) as [s|s| |s m e]; try contradiction; intros Hx.
  - eexists. split; reflexivity.
  - simpl in Hx.
    assert (Hsmall : JS.at_least_1e21 m e = false).
    { unfold JS.at_least_1e21.
      destruct (Z.leb_spec 0 e) as [He | He]; apply Z.leb_gt.
      - assert (Z.pos m * 2 ^ e <= 1); [|lia].
        apply F2R_le_inv with 0. rewrite F2R_shift by lia.
        unfold F2R at 2. rewrite bpow_0. simpl (0 + e). lra.
      - assert (Z.pos m <= 2 ^ (- e)).
        { apply F2R_le_inv with e.
          replace (2 ^ (- e)) with (1 * 2 ^ (- e)) by lia.
          rewrite F2R_shift by lia.
          replace (e + - e) with 0 by ring. unfold F2R at 2. rewrite bpow_0. lra. }
        assert (0 < 2 ^ (- e)) by (apply Z.pow_pos_nonneg; lia).
        assert (1 < 10 ^ 21) by reflexivity. nia. }
    rewrite Hsmall.
    set (ds := JS.digits (JS.scaled_round m e 4)).
    assert (Hbody : has_point (JS.with_point ds 4) = true)
      by (unfold JS.with_point; apply has_point_app).
    destruct s; eexists; (split; [reflexivity|]); [|exact Hbody].
    exact Hbody.
Qed.

(** X5.  For bands of finite non-negative values, with the NIR band at
    least as long as the pixels processed and at least one valid
    pixel, the mean is a number in [-1, 1] and [meanNdvi] is a decimal
    numeral (never ["NaN"] or ["Infinity"]), in the answer of the
    controller and of the route. *)
Theorem mean_in_range (redImage nirImage : Image) :
  let red := readRasters0 redImage in
  let nir := readRasters0 nirImage in
  Forall (fun v => finite_nonneg v = true) red ->
  Forall (fun v => finite_nonneg v = true) nir ->
  Service.bound red <= JS.length nir ->
  0 < count (Service.reduce red nir) ->
  let mean := (sum (Service.reduce red nir)
               / number_of_count (count (Service.reduce red nir)))%float in
  (-1 <=? mean)%float = true
  /\ (mean <=? 1)%float = true
  /\ meanNdvi (Service.calculateNdvi redImage nirImage) = JS.toFixed mean 4
  /\ (exists s, meanNdvi (Service.calculateNdvi redImage nirImage) = JS.Text s
                /\ has_point s = true)
  /\ Route.handler (Some (redImage, nirImage))
     = Json200 (Service.calculateNdvi redImage nirImage).
Proof.
  intros red nir Hred Hnir Hlen Hcount mean.
  assert (Hin : forall i, (i < iterations red)%nat ->
     exists r x, JS.get red i = Some r /\ JS.get nir i = Some x
                 /\ finite_nonneg r = true /\ finite_nonneg x = true).
  { intros i Hi. unfold iterations, Service.bound, JS.Math_min, JS.length in *.
    destruct (nth_error red i) as [r|] eqn:Er;
      [|apply nth_error_None in Er; lia].
    destruct (nth_error nir i) as [x|] eqn:Ex;
      [|apply nth_error_None in Ex; lia].
    exists r, x. repeat split; try assumption.
    - apply nth_error_In in Er. now apply (proj1 (Forall_forall _ _) Hred).
    - apply nth_error_In in Ex. now apply (proj1 (Forall_forall _ _) Hnir). }
  assert (Hk : Z.of_nat (iterations red) <= 1000000).
  { unfold iterations, Service.bound, JS.Math_min, Service.maxPixels. lia. }
  destruct (sum_below_count red nir (iterations red) Hin Hk) as [Hc Hs].
  change (Service.loop red nir (iterations red)) with (Service.reduce red nir) in Hc, Hs.
  destruct (number_of_count_spec (count (Service.reduce red nir)) ltac:(lia))
    as (m & e & Hnum & Hval).
  assert (Hmean : SFbelow 1 (Prim2SF mean)).
  { unfold mean. rewrite div_spec, Hnum.
    apply (SFdiv_below_1 prec emax prec_pos prec_lt_emax). now rewrite Hval. }
  destruct (SFleb_one (Prim2SF mean) (Prim2SF_valid mean) Hmean) as [Hle Hge].
  rewrite !leb_spec.
  split; [exact Hge|]. split; [exact Hle|].
  split; [reflexivity|]. split; [|reflexivity].
  exact (toFixed_below_1 mean Hmean).
Qed.

Lemma mean_in_range_witness :
  let mean := (sum (Service.reduce [100; 0; 50]%float [300; 0; 150]%float)
               / number_of_count 2)%float in
  (-1 <=? mean)%float = true /\ (mean <=? 1)%float = true.
Proof.
  intros mean.
  destruct (mean_in_range (img [100; 0; 50]%float 3 1) (img [300; 0; 150]%float 3 1))
    as (H1 & H2 & _).
  - repeat constructor.
  - repeat constructor.
  - vm_compute. discriminate.
  - vm_compute. reflexivity.
  - split; assumption.
Defined.

(** ** Coordinates *)

(** A number between two finite numbers is finite. *)
Lemma between_finite (c d x : float) :
  is_finite c = true ->
  is_finite d = true ->
  (c <=? x)%float = true ->
  (x <=? d)%float = true ->
  is_finite x = true.
Proof.
  unfold is_finite, is_nan, is_infinity.
  rewrite !eqb_spec, !leb_spec, !abs_spec.
  change (Prim2SF infinity) with (S754_infinity false).
  destruct (Prim2SF x) as [sx|[|]| |sx mx ex] eqn:Ex.
  - intros _ _ _ _. reflexivity.
  - (* -Infinity: only -Infinity is below it *)
    intros Hc _ Hle _. exfalso.
    destruct (Prim2SF c) as [sc|[|]| |[|] mc ec]; discriminate.
  - (* +Infinity: only +Infinity is above it *)
    intros _ Hd _ Hle. exfalso.
    destruct (Prim2SF d) as [sd|[|]| |[|] md ed]; discriminate.
  - intros _ _ Hle _. exfalso.
    destruct (Prim2SF c) as [sc|[|]| |[|] mc ec]; discriminate.
  - intros _ _ _ _.
    rewrite SFeqb_refl by discriminate. reflexivity.
Qed.

(** What validates is a pair of finite numbers in range. *)
Lemma validateCoordinates_finite (latitude longitude : Value.value) :
  Utils.validateCoordinates latitude longitude = true ->
  exists lat lon : float,
    latitude = Value.Number lat /\ longitude = Value.Number lon
    /\ is_finite lat = true /\ is_finite lon = true
    /\ (-90 <=? lat)%float = true /\ (lat <=? 90)%float = true
    /\ (-180 <=? lon)%float = true /\ (lon <=? 180)%float = true.
Proof.
  unfold Utils.validateCoordinates.
  destruct latitude as [| |lat|s]; try discriminate.
  destruct longitude as [| |lon|s]; try discriminate.
  intros H.
  apply andb_true_iff in H. destruct H as [H H4].
  apply andb_true_iff in H. destruct H as [H H3].
  apply andb_true_iff in H. destruct H as [H1 H2].
  exists lat, lon. repeat split; try assumption.
  - now apply between_finite with (-90)%float 90%float.
  - now apply between_finite with (-180)%float 180%float.
Qed.

(** X6.  [validateCoordinates] accepts numbers only, and only finite
    ones: no NaN, no infinity, no string gets past it; what it accepts
    lies in [-90, 90] and [-180, 180]. *)
Theorem validateCoordinates_accepts (latitude longitude : Value.value) :
  Utils.validateCoordinates latitude longitude = true ->
  exists lat lon : float,
    latitude = Value.Number lat /\ longitude = Value.Number lon
    /\ is_finite lat = true /\ is_finite lon = true
    /\ (-90 <=? lat)%float = true /\ (lat <=? 90)%float = true
    /\ (-180 <=? lon)%float = true /\ (lon <=? 180)%float = true.
Proof. apply validateCoordinates_finite. Qed.

Lemma validateCoordinates_accepts_witness :
  exists lat lon : float,
    Value.Number 28.5 = Value.Number lat /\ Value.Number 77.25 = Value.Number lon
    /\ is_finite lat = true /\ is_finite lon = true
    /\ (-90 <=? lat)%float = true /\ (lat <=? 90)%float = true
    /\ (-180 <=? lon)%float = true /\ (lon <=? 180)%float = true.
Proof.
  apply (validateCoordinates_accepts (Value.Number 28.5) (Value.Number 77.25)).
  reflexivity.
Defined.

(** ** The extended [getNdviData] *)

(** X7.  The extended controller answers 400 exactly when both
    coordinates are given (non-empty) and do not validate; this is
    decided before the files are looked at.  A 200 answer carries the
    reducer's result unchanged; it echoes coordinates exactly when both
    were given, and then they are finite and in range.  With one
    coordinate missing nothing is validated. *)
Theorem getNdviData_gate (rt : Runtime) (query : Controller.Query)
        (files : Controller.fetched) :
  let both := Value.truthy (Controller.latitude query)
              && Value.truthy (Controller.longitude query) in
  let lat := Value.parseFloat rt (Controller.latitude query) in
  let lon := Value.parseFloat rt (Controller.longitude query) in
  let valid := Utils.validateCoordinates (Value.Number lat) (Value.Number lon) in
  (Controller.getNdviData rt query files
   = Controller.Status400 "Invalid coordinates provided"
   <-> both = true /\ valid = false)
  /\ (forall error, Controller.getNdviData rt query files = Controller.Status400 error ->
                    both = true /\ valid = false)
  /\ (forall body,
        Controller.getNdviData rt query files = Controller.Status200 body ->
        (exists redImage nirImage,
            files = Controller.Fetched redImage nirImage
            /\ Controller.ndviResult body = Service.calculateNdvi redImage nirImage
            /\ Json200 (Controller.ndviResult body)
               = getNdviData (Some (redImage, nirImage)))
        /\ (Controller.coordinates body = None <-> both = false)
        /\ (forall c, Controller.coordinates body = Some c ->
              Controller.c_latitude c = lat /\ Controller.c_longitude c = lon
              /\ is_finite lat = true /\ is_finite lon = true
              /\ Utils.validateCoordinates (Value.Number lat) (Value.Number lon) = true)).
Proof.
  intros both lat lon valid.
  unfold Controller.getNdviData. fold both lat lon valid.
  destruct both eqn:Hboth, valid eqn:Hvalid; simpl;
    (split; [split; [intros H | intros [H1 H2]]|split; [intros error H|intros body H]]);
    try discriminate; try (split; reflexivity);
    try (destruct files; discriminate); try reflexivity.
  - (* both given and valid *)
    destruct files as [redImage nirImage | message]; [|discriminate].
    injection H as <-. cbn [Controller.ndviResult Controller.coordinates].
    split; [exists redImage, nirImage; repeat split|].
    split; [split; discriminate|].
    intros c Hc. injection Hc as <-.
    cbn [Controller.c_latitude Controller.c_longitude].
    destruct (validateCoordinates_finite _ _ Hvalid)
      as (lat' & lon' & Hlat & Hlon & Hf1 & Hf2 & _).
    injection Hlat as <-. injection Hlon as <-.
    repeat split; assumption.
  - destruct files as [redImage nirImage | message]; [|discriminate].
    injection H as <-. cbn [Controller.ndviResult Controller.coordinates].
    split; [exists redImage, nirImage; repeat split|].
    split; [split; reflexivity | discriminate].
  - destruct files as [redImage nirImage | message]; [|discriminate].
    injection H as <-. cbn [Controller.ndviResult Controller.coordinates].
    split; [exists redImage, nirImage; repeat split|].
    split; [split; reflexivity | discriminate].
Qed.

Lemma getNdviData_gate_witness :
  let query := {| Controller.latitude := Some "28.5"%string;
                  Controller.longitude := Some "77.25"%string;
                  Controller.area := None |} in
  let files := Controller.Fetched (img [100%float] 1 1) (img [300%float] 1 1) in
  exists body c,
    Controller.getNdviData sample_runtime query files = Controller.Status200 body
    /\ Controller.coordinates body = Some c
    /\ is_finite (Controller.c_latitude c) = true
    /\ is_finite (Controller.c_longitude c) = true.
Proof.
  intros query files.
  destruct (Controller.getNdviData sample_runtime query files) as [body | |] eqn:E;
    try (vm_compute in E; discriminate).
  destruct (Controller.coordinates body) as [c|] eqn:Ec.
  - exists body, c. split; [reflexivity|]. split; [exact Ec|].
    destruct (proj2 (proj2 (getNdviData_gate sample_runtime query files)) body E)
      as (_ & _ & Hc).
    destruct (Hc c Ec) as (-> & -> & H1 & H2 & _). split; assumption.
  - exfalso.
    destruct (proj2 (proj2 (getNdviData_gate sample_runtime query files)) body E)
      as (_ & [Hnone _] & _).
    specialize (Hnone Ec). vm_compute in Hnone. discriminate.
Defined.

(** ** The chart data *)

(** X8.  The chart always has twelve labels and twelve values: the
    month names in calendar order ending with the current month.  The
    months after the current one in the calendar, which come first, are
    dated last year, the others this year.  The last value, and
    [currentValue], is the parsed current NDVI, whatever the random
    generator gave. *)
Theorem chart_months (rt : Runtime) (currentNdvi : JS.text) :
  (getMonth rt <= 11)%nat ->
  let h := Controller.historicalData rt currentNdvi in
  let chart := Controller.generateChartData rt currentNdvi in
  let m := getMonth rt in
  Controller.labels chart
  = map (fun k => nth_error Controller.months ((m + 1 + k) mod 12)%nat) (seq 0 12)
  /\ Forall (fun label => exists name, label = Some name) (Controller.labels chart)
  /\ map Controller.year h
     = map (fun k => if (k <? 11 - m)%nat then getFullYear rt - 1 else getFullYear rt)
           (seq 0 12)
  /\ map Controller.isCurrent h
     = [false; false; false; false; false; false;
        false; false; false; false; false; true]
  /\ (exists d, Controller.datasets chart = [d]
                /\ List.length (Controller.data d) = 12%nat
                /\ nth_error (Controller.data d) 11
                   = Some (Value.parseFloat_text rt currentNdvi))
  /\ Controller.currentValue chart = Value.parseFloat_text rt currentNdvi.
Proof.
  intros Hm h chart m.
  destruct rt as [pf cos rnd mth yr iso].
  cbn [getMonth] in *. subst m.
  assert (Hlabels : Controller.labels chart
                    = map (fun k => nth_error Controller.months ((mth + 1 + k) mod 12)%nat)
                          (seq 0 12)).
  { do 12 (destruct mth as [|mth]; [reflexivity|]). lia. }
  split; [exact Hlabels|]. split; [|split; [|split; [|split]]].
  - rewrite Hlabels.
    do 12 (destruct mth as [|mth]; [repeat constructor; eexists; reflexivity|]). lia.
  - do 12 (destruct mth as [|mth]; [reflexivity|]). lia.
  - reflexivity.
  - eexists. split; [reflexivity|]. split; reflexivity.
  - reflexivity.
Qed.

Lemma chart_months_witness :
  Controller.labels (Controller.generateChartData sample_runtime (JS.Text "0.5000"))
  = [Some "Apr"; Some "May"; Some "Jun"; Some "Jul"; Some "Aug"; Some "Sep";
     Some "Oct"; Some "Nov"; Some "Dec"; Some "Jan"; Some "Feb"; Some "Mar"]%string.
Proof.
  rewrite (proj1 (chart_months sample_runtime (JS.Text "0.5000") ltac:(simpl; lia))).
  reflexivity.
Defined.

(** ** Adding and subtracting a non-negative number *)

Section Order.

Variables prec emax : Z.
Hypothesis Hprec : 0 < prec.
Hypothesis Hemax : prec < emax.

(** Among the numbers of the format, the order of the values is the
    order of the (exponent, mantissa) pairs. *)
Lemma canonical_order (ma mb : positive) (ea eb : Z) :
  SpecFloat.bounded prec emax ma ea = true ->
  SpecFloat.bounded prec emax mb eb = true ->
  (F2R (Z.pos ma) ea <= F2R (Z.pos mb) eb)%R ->
  ea < eb \/ (ea = eb /\ (ma <= mb)%positive).
Proof.
  intros Ha Hb Hle.
  destruct (Z_lt_le_dec ea eb) as [|Hge]; [now left | right].
  assert (Hcanon : SpecFloat.fexp prec emax (Z.pos (digits2_pos ma) + ea) = ea).
  { unfold SpecFloat.bounded, canonical_mantissa in Ha.
    apply andb_true_iff in Ha. destruct Ha as [Ha _]. now apply Z.eqb_eq. }
  destruct (bounded_spec _ _ _ _ Hb) as (_ & Hebmin & _).
  pose proof (bounded_lt _ _ _ _ Hb) as Hblt.
  destruct (Zdigits2_F2R (Z.pos ma) ea ltac:(lia)) as [Halo _]. simpl Zdigits2 in Halo.
  destruct (Z.eq_dec ea eb) as [Heq | Hne].
  - split; [assumption|]. subst eb.
    assert (Z.pos ma <= Z.pos mb) by now apply F2R_le_inv with ea.
    lia.
  - exfalso.
    assert (Z.pos (digits2_pos ma) = prec) by (unfold SpecFloat.fexp in Hcanon; lia).
    pose proof (bpow_le (prec + eb) (Z.pos (digits2_pos ma) - 1 + ea) ltac:(lia)).
    lra.
Qed.

Lemma SFleb_refl (x : spec_float) : x <> S754_nan -> SFleb x x = true.
Proof.
  intros Hx. unfold SFleb, SFcompare.
  destruct x as [s|[|]| |[|] m e]; try reflexivity; try congruence;
    rewrite Z.compare_refl;
    change (Pos.compare_cont Eq m m) with (Pos.compare m m);
    rewrite Pos.compare_refl; reflexivity.
Qed.

Lemma SFleb_pos (ma mb : positive) (ea eb : Z) :
  ea < eb \/ (ea = eb /\ (ma <= mb)%positive) ->
  SFleb (S754_finite false ma ea) (S754_finite false mb eb) = true
  /\ SFleb (S754_finite true mb eb) (S754_finite true ma ea) = true.
Proof.
  intros [Hlt | [-> Hle]]; unfold SFleb, SFcompare.
  - split.
    + destruct (Z.compare_spec ea eb); first [lia | reflexivity].
    + destruct (Z.compare_spec eb ea); first [lia | reflexivity].
  - rewrite Z.compare_refl.
    change (Pos.compare_cont Eq ma mb) with (Pos.compare ma mb).
    change (Pos.compare_cont Eq mb ma) with (Pos.compare mb ma).
    split.
    + destruct (Pos.compare_spec ma mb); first [lia | reflexivity].
    + destruct (Pos.compare_spec mb ma); first [lia | reflexivity].
Qed.

(** The sign of what rounding returns. *)
Lemma binary_round_signed (s : bool) (m : positive) (e : Z) :
  SFsigned s (binary_round prec emax s m e).
Proof.
  unfold binary_round.
  destruct (shl_align m e _) as [mz ez].
  destruct (binary_round_aux_steps prec emax s (Z.pos mz) ez loc_Exact
              (Pos2Z.is_nonneg mz))
    as (mrs1 & e1 & m2 & m3 & e3 & _ & _ & _ & _ & Hm3 & _ & ->).
  destruct m3 as [|p|p]; try lia; [reflexivity|].
  destruct (e3 <=? emax - prec); reflexivity.
Qed.

Lemma SFleb_signed (x y : spec_float) :
  SFsigned true x -> SFsigned false y -> SFleb x y = true.
Proof.
  destruct x as [sx|sx| |sx mx ex], y as [sy|sy| |sy my ey];
    simpl; try contradiction; intros -> ->; reflexivity.
Qed.

(** [x <= x + d] and [x - d <= x] for a finite [x] and [0 <= d]; the
    two results are numbers of the format. *)
Lemma SFadd_sub_nonneg (x d : spec_float) :
  SpecFloat.valid_binary prec emax x = true ->
  (exists s, x = S754_zero s) \/ (exists s m e, x = S754_finite s m e) ->
  SFnonneg prec emax d ->
  SpecFloat.valid_binary prec emax (SFadd prec emax x d) = true ->
  SpecFloat.valid_binary prec emax (SFsub prec emax x d) = true ->
  SFleb x (SFadd prec emax x d) = true
  /\ SFleb (SFsub prec emax x d) x = true.
Proof.
  intros Hvx Hx Hd.
  destruct d as [sd|[|]| |[|] md ed]; try contradiction;
    destruct Hx as [[sx ->] | (sx & mx & ex & ->)].
  - intros _ _. destruct sx, sd; split; reflexivity.
  - intros _ _. split; apply SFleb_refl; discriminate.
  - intros _ _. split; reflexivity.
  - intros _ _. destruct sx; split; reflexivity.
  - intros _ _. split; reflexivity.
  - (* a finite [x] and a positive finite [d] *)
    simpl in Hvx, Hd. unfold SFadd, SFsub, cond_Zopp.
    set (ez := Z.min ex ed).
    destruct (shl_align mx ex ez) as [ax ex'] eqn:Ex.
    destruct (shl_align md ed ez) as [ad ed'] eqn:Ed.
    destruct (shl_align_spec _ _ _ _ _ Ex) as (Hex' & Hvxr & _).
    destruct (shl_align_spec _ _ _ _ _ Ed) as (Hed' & Hvdr & _).
    assert (Hex : ex' = ez) by (unfold ez in *; lia).
    assert (Hed : ed' = ez) by (unfold ez in *; lia).
    clear Hex' Hed'. subst ex' ed'. simpl fst.
    destruct sx.
    + (* x < 0 *)
      intros Hvadd Hvsub. split.
      * (* -|x| + d *)
        destruct (- Z.pos ax + Z.pos ad) as [|p|p] eqn:EM; unfold binary_normalize in *.
        -- reflexivity.
        -- apply SFleb_signed; [reflexivity | apply binary_round_signed].
        -- destruct (binary_round_upper prec emax Hprec Hemax true p ez mx ex Hvx)
             as (r & Hr & Hbelow & Hshape).
           { rewrite <- Hvxr. apply F2R_le. lia. }
           rewrite Hr in *.
           destruct Hshape as [-> | (m' & e' & ->)]; [reflexivity|].
           simpl in Hbelow, Hvadd.
           apply SFleb_pos. now apply canonical_order.
      * (* -|x| - d *)
        change (- Z.pos ax - Z.pos ad) with (Z.neg (ax + ad)) in *.
        unfold binary_normalize in *.
        destruct (binary_round_lower prec emax Hprec true (ax + ad) ez mx ex Hvx)
          as (r & Hr & Habove & Hshape).
        { rewrite <- Hvxr. apply F2R_le. lia. }
        rewrite Hr in *.
        destruct Hshape as [-> | (m' & e' & ->)]; [reflexivity|].
        simpl in Habove, Hvsub.
        apply SFleb_pos. now apply canonical_order.
    + (* 0 < x *)
      intros Hvadd Hvsub. split.
      * change (Z.pos ax + Z.pos ad) with (Z.pos (ax + ad)) in *.
        unfold binary_normalize in *.
        destruct (binary_round_lower prec emax Hprec false (ax + ad) ez mx ex Hvx)
          as (r & Hr & Habove & Hshape).
        { rewrite <- Hvxr. apply F2R_le. lia. }
        rewrite Hr in *.
        destruct Hshape as [-> | (m' & e' & ->)]; [reflexivity|].
        simpl in Habove, Hvadd.
        apply SFleb_pos. now apply canonical_order.
      * destruct (Z.pos ax - Z.pos ad) as [|p|p] eqn:EM; unfold binary_normalize in *.
        -- reflexivity.
        -- destruct (binary_round_upper prec emax Hprec Hemax false p ez mx ex Hvx)
             as (r & Hr & Hbelow & Hshape).
           { rewrite <- Hvxr. apply F2R_le. lia. }
           rewrite Hr in *.
           destruct Hshape as [-> | (m' & e' & ->)]; [reflexivity|].
           simpl in Hbelow, Hvsub.
           apply SFleb_pos. now apply canonical_order.
        -- apply SFleb_signed; [apply binary_round_signed | reflexivity].
Qed.

End Order.

(** The sign of a quotient of finite numbers. *)
Lemma SFdiv_signed (prec emax : Z) (sx sy : bool) (mx my : positive) (ex ey : Z) :
  SFsigned (xorb sx sy)
    (SFdiv prec emax (S754_finite sx mx ex) (S754_finite sy my ey)).
Proof.
  unfold SFdiv, SFdiv_core_binary.
  set (ez := Z.min _ _). set (sh := ex - ey - ez).
  set (m' := match sh with
             | 0 => Z.pos mx
             | Z.pos _ => Z.shiftl (Z.pos mx) sh
             | Z.neg _ => 0
             end).
  assert (Hm' : 0 <= m').
  { unfold m'. destruct sh as [|p|p]; try lia.
    rewrite Z.shiftl_mul_pow2 by lia.
    assert (0 < 2 ^ Z.pos p) by (apply Z.pow_pos_nonneg; lia). lia. }
  pose proof (Z_div_mod m' (Z.pos my) ltac:(lia)) as Hdiv.
  destruct (Z.div_eucl m' (Z.pos my)) as [q r].
  destruct Hdiv as [Hqr Hr].
  assert (Hq : 0 <= q) by nia.
  destruct (binary_round_aux_steps prec emax (xorb sx sy) q ez
              (new_location (Z.pos my) r) Hq)
    as (mrs1 & e1 & m2 & m3 & e3 & _ & _ & _ & _ & Hm3 & _ & ->).
  destruct m3 as [|p|p]; try lia; [reflexivity|].
  destruct (e3 <=? emax - prec); reflexivity.
Qed.

Lemma nonneg_spec (d : float) :
  (0 <=? d)%float = true -> SFnonneg prec emax (Prim2SF d).
Proof.
  rewrite leb_spec. change (Prim2SF 0) with (S754_zero false).
  pose proof (Prim2SF_valid d) as Hv.
  destruct (Prim2SF d) as [s|[|]| |[|] m e]; try discriminate; intros _;
    try exact I.
  exact Hv.
Qed.

Lemma SFleb_zero_signed (x : spec_float) :
  SFsigned false x -> SFleb (S754_zero false) x = true.
Proof.
  destruct x as [s|s| |s m e]; simpl; try contradiction; intros ->; reflexivity.
Qed.

(** A non-negative number divided by a positive finite one is not
    negative. *)
Lemma div_nonneg (a c : float) :
  (0 <=? a)%float = true ->
  (0 <? c)%float = true -> (c <? infinity)%float = true ->
  (0 <=? a / c)%float = true.
Proof.
  intros Ha Hc0 Hc1. apply nonneg_spec in Ha.
  rewrite ltb_spec in Hc0, Hc1. rewrite leb_spec, div_spec.
  change (Prim2SF 0) with (S754_zero false) in *.
  change (Prim2SF infinity) with (S754_infinity false) in Hc1.
  destruct (Prim2SF c) as [sc|[|]| |[|] mc ec]; try discriminate.
  destruct (Prim2SF a) as [sa|[|]| |[|] ma ea]; try contradiction.
  - destruct sa; reflexivity.
  - reflexivity.
  - apply SFleb_zero_signed. apply (SFdiv_signed prec emax false false).
Qed.

Lemma finite_spec (x : float) :
  is_finite x = true ->
  (exists s, Prim2SF x = S754_zero s) \/ (exists s m e, Prim2SF x = S754_finite s m e).
Proof.
  unfold is_finite, is_nan, is_infinity.
  rewrite !eqb_spec, abs_spec.
  change (Prim2SF infinity) with (S754_infinity false).
  destruct (Prim2SF x) as [s|[|]| |s m e]; unfold SFeqb, SFcompare, SFabs;
    try discriminate; intros _; eauto 6.
Qed.

(** [x - d <= x <= x + d] for a finite [x] and [0 <= d]. *)
Lemma add_sub_nonneg (x d : float) :
  is_finite x = true ->
  (0 <=? d)%float = true ->
  (x - d <=? x)%float = true /\ (x <=? x + d)%float = true.
Proof.
  intros Hx Hd. rewrite !leb_spec, add_spec, sub_spec.
  apply and_comm.
  apply (SFadd_sub_nonneg prec emax prec_pos prec_lt_emax).
  - apply Prim2SF_valid.
  - now apply finite_spec.
  - now apply nonneg_spec.
  - rewrite <- add_spec. apply Prim2SF_valid.
  - rewrite <- sub_spec. apply Prim2SF_valid.
Qed.

(** ** The bounding box *)

(** X9.  For a finite latitude and a radius that is not negative the
    box contains the point's latitude: [south <= latitude <= north].
    The same holds for a finite longitude whenever the offset in
    longitude the code computes is not negative. *)
Theorem bounding_box_contains (rt : Runtime) (latitude longitude radiusKm : float) :
  is_finite latitude = true ->
  (0 <=? radiusKm)%float = true ->
  let box := Utils.generateBoundingBox rt latitude longitude radiusKm in
  (Utils.south box <=? latitude)%float = true
  /\ (latitude <=? Utils.north box)%float = true
  /\ (is_finite longitude = true ->
      (0 <=? radiusKm / (111.32 * Math_cos rt (latitude * Utils.Math_PI / 180)))%float
      = true ->
      (Utils.west box <=? longitude)%float = true
      /\ (longitude <=? Utils.east box)%float = true).
Proof.
  intros Hlat Hr box.
  assert (Hdelta : (0 <=? radiusKm / 111.32)%float = true)
    by (apply div_nonneg; [exact Hr | reflexivity | reflexivity]).
  destruct (add_sub_nonneg latitude _ Hlat Hdelta) as [Hs Hn].
  split; [exact Hs|]. split; [exact Hn|].
  intros Hlon Hlondelta.
  exact (add_sub_nonneg longitude _ Hlon Hlondelta).
Qed.

Lemma bounding_box_contains_witness :
  let box := Utils.generateBoundingBox sample_runtime 28.5 77.25 1 in
  (Utils.south box <=? 28.5)%float = true
  /\ (28.5 <=? Utils.north box)%float = true
  /\ (Utils.west box <=? 77.25)%float = true
  /\ (77.25 <=? Utils.east box)%float = true.
Proof.
  intros box.
  destruct (bounding_box_contains sample_runtime 28.5 77.25 1 eq_refl eq_refl)
    as (Hs & Hn & Hlon).
  destruct (Hlon eq_refl eq_refl) as [Hw He].
  repeat split; assumption.
Defined.

(** ** The order of the numbers *)

Lemma SFleb_trans (x y z : spec_float) :
  SFleb x y = true -> SFleb y z = true -> SFleb x z = true.
Proof.
  unfold SFleb, SFcompare.
  destruct x as [sx|sx| |sx mx ex], y as [sy|sy| |sy my ey], z as [sz|sz| |sz mz ez];
    try discriminate; try reflexivity;
    try (destruct sx, sy, sz; (discriminate || reflexivity));
    try (destruct sx, sy; (discriminate || reflexivity));
    try (destruct sx, sz; (discriminate || reflexivity));
    try (destruct sy, sz; (discriminate || reflexivity)).
  pose proof (Pos.compare_spec mx my) as Pxy.
  pose proof (Pos.compare_spec my mz) as Pyz.
  pose proof (Pos.compare_spec mx mz) as Pxz.
  unfold Pos.compare in Pxy, Pyz, Pxz.
  destruct sx, sy, sz; try discriminate; try reflexivity;
    destruct (Z.compare_spec ex ey), (Z.compare_spec ey ez), (Z.compare_spec ex ez);
    try discriminate; try reflexivity; try lia;
    destruct Pxy, Pyz, Pxz; try discriminate; try reflexivity; lia.
Qed.

Lemma SFltb_trans (x y z : spec_float) :
  SFltb x y = true -> SFltb y z = true -> SFltb x z = true.
Proof.
  unfold SFltb, SFcompare.
  destruct x as [sx|sx| |sx mx ex], y as [sy|sy| |sy my ey], z as [sz|sz| |sz mz ez];
    try discriminate; try reflexivity;
    try (destruct sx, sy, sz; (discriminate || reflexivity));
    try (destruct sx, sy; (discriminate || reflexivity));
    try (destruct sx, sz; (discriminate || reflexivity));
    try (destruct sy, sz; (discriminate || reflexivity)).
  pose proof (Pos.compare_spec mx my) as Pxy.
  pose proof (Pos.compare_spec my mz) as Pyz.
  pose proof (Pos.compare_spec mx mz) as Pxz.
  unfold Pos.compare in Pxy, Pyz, Pxz.
  destruct sx, sy, sz; try discriminate; try reflexivity;
    destruct (Z.compare_spec ex ey), (Z.compare_spec ey ez), (Z.compare_spec ex ez);
    try discriminate; try reflexivity; try lia;
    destruct Pxy, Pyz, Pxz; try discriminate; try reflexivity; lia.
Qed.

(** Two numbers, neither a NaN, are comparable. *)
Lemma SFltb_SFleb (x y : spec_float) :
  x <> S754_nan -> y <> S754_nan -> SFltb x y = negb (SFleb y x).
Proof.
  unfold SFltb, SFleb, SFcompare. intros Hx Hy.
  destruct x as [sx|sx| |sx mx ex], y as [sy|sy| |sy my ey];
    try congruence; try reflexivity;
    try (destruct sx, sy; reflexivity);
    try (destruct sx; reflexivity); try (destruct sy; reflexivity).
  pose proof (Pos.compare_spec mx my) as Pxy.
  pose proof (Pos.compare_spec my mx) as Pyx.
  unfold Pos.compare in Pxy, Pyx.
  destruct sx, sy; try reflexivity;
    destruct (Z.compare_spec ex ey), (Z.compare_spec ey ex); try lia; try reflexivity;
    destruct Pxy, Pyx; try reflexivity; lia.
Qed.

Lemma leb_trans (x y z : float) :
  (x <=? y)%float = true -> (y <=? z)%float = true -> (x <=? z)%float = true.
Proof. rewrite !leb_spec. apply SFleb_trans. Qed.

Lemma ltb_trans (x y z : float) :
  (x <? y)%float = true -> (y <? z)%float = true -> (x <? z)%float = true.
Proof. rewrite !ltb_spec. apply SFltb_trans. Qed.

Lemma not_nan_spec (x : float) : is_nan x = false -> Prim2SF x <> S754_nan.
Proof.
  unfold is_nan. rewrite eqb_spec. intros H E. rewrite E in H. discriminate.
Qed.

Lemma ltb_leb (x y : float) :
  is_nan x = false -> is_nan y = false -> (x <? y)%float = negb (y <=? x)%float.
Proof.
  intros Hx Hy. rewrite ltb_spec, leb_spec.
  apply SFltb_SFleb; now apply not_nan_spec.
Qed.

(** ** The suggestion engine *)

(** X10.  The health percentage never decreases when the NDVI grows. *)
Theorem health_monotone (x y : float) :
  (x <=? y)%float = true ->
  Engine.percentage (Engine.analyzeVegetationHealth x)
  <= Engine.percentage (Engine.analyzeVegetationHealth y).
Proof.
  intros Hxy.
  assert (T : forall c, (c <=? x)%float = true -> (c <=? y)%float = true)
    by (intros c Hc; now apply leb_trans with x).
  unfold Engine.analyzeVegetationHealth.
  destruct (0.6 <=? x)%float eqn:A.
  { rewrite (T _ A). cbn. lia. }
  destruct (0.4 <=? x)%float eqn:B.
  { rewrite (T _ B). destruct (0.6 <=? y)%float; cbn; lia. }
  destruct (0.2 <=? x)%float eqn:C.
  { rewrite (T _ C). destruct (0.6 <=? y)%float, (0.4 <=? y)%float; cbn; lia. }
  destruct (0.1 <=? x)%float eqn:D.
  { rewrite (T _ D).
    destruct (0.6 <=? y)%float, (0.4 <=? y)%float, (0.2 <=? y)%float; cbn; lia. }
  destruct (0.6 <=? y)%float, (0.4 <=? y)%float, (0.2 <=? y)%float, (0.1 <=? y)%float;
    cbn; lia.
Qed.

Lemma health_monotone_witness :
  (0.25 <=? 0.5)%float = true
  /\ Engine.percentage (Engine.analyzeVegetationHealth 0.25)
     <= Engine.percentage (Engine.analyzeVegetationHealth 0.5).
Proof.
  split; [reflexivity|].
  apply (health_monotone 0.25 0.5). reflexivity.
Defined.

(** X11.  The three assessments of one answer never contradict each
    other: the health status, the irrigation advice and the yield
    prediction fall in the same one of four bands (the statuses Poor and
    Critical share the lowest), and the health and the yield report the
    NDVI they were given. *)
Theorem assessments_agree (currentNdvi : float) (historicalNdvi : option float)
        (coordinates : Engine.Location) (season : string) :
  let s := Engine.generateCropSuggestions currentNdvi historicalNdvi coordinates season in
  let status := Engine.status (Engine.vegetationHealth s) in
  let prediction := Engine.prediction (Engine.yieldPrediction s) in
  let advice := Engine.irrigationAdvice s in
  Engine.ndviValue (Engine.vegetationHealth s) = currentNdvi
  /\ Engine.ndviBased (Engine.yieldPrediction s) = currentNdvi
  /\ ((status = "Excellent"%string /\ prediction = "High"%string
       /\ advice = "Optimal moisture levels. Maintain current irrigation schedule."%string)
      \/ (status = "Good"%string /\ prediction = "Medium-High"%string
          /\ advice = "Good moisture levels. Consider slight increase in irrigation if trend is declining."%string)
      \/ (status = "Moderate"%string /\ prediction = "Medium"%string
          /\ advice = "Moderate moisture levels. Increase irrigation frequency and duration."%string)
      \/ ((status = "Poor"%string \/ status = "Critical"%string)
          /\ prediction = "Low"%string
          /\ advice = "Low moisture levels. Immediate irrigation required. Consider drip irrigation for efficiency."%string)).
Proof.
  cbv zeta.
  unfold Engine.generateCropSuggestions, Engine.analyzeVegetationHealth,
    Engine.predictYield, Engine.getIrrigationAdvice.
  cbn [Engine.vegetationHealth Engine.yieldPrediction Engine.irrigationAdvice].
  destruct (0.6 <=? currentNdvi)%float;
    [cbn; split; [reflexivity|split; [reflexivity|left; repeat split]]|].
  destruct (0.4 <=? currentNdvi)%float;
    [cbn; split; [reflexivity|split; [reflexivity|right; left; repeat split]]|].
  destruct (0.2 <=? currentNdvi)%float;
    [cbn; split; [reflexivity|split; [reflexivity|right; right; left; repeat split]]|].
  destruct (0.1 <=? currentNdvi)%float;
    cbn; (split; [reflexivity|split; [reflexivity|right; right; right]]).
  - split; [left; reflexivity|split; reflexivity].
  - split; [right; reflexivity|split; reflexivity].
Qed.

(** For a number, the recommendation of the yield prediction and the
    list of crops switch to soil improvement together, below 0.3. *)
Lemma recommendation_matches_crops (currentNdvi : float)
      (historicalNdvi : option float) (season : string) :
  is_nan currentNdvi = false ->
  (Engine.recommendation (Engine.predictYield currentNdvi historicalNdvi)
   = "Consider crop rotation or soil improvement"%string
   <-> map Engine.crop (Engine.getCropRecommendations currentNdvi season)
       = ["Green Manure"; "Drought-resistant varieties"]%string).
Proof.
  intros Hn.
  assert (L : (currentNdvi <? 0.3)%float = negb (0.3 <=? currentNdvi)%float)
    by (apply ltb_leb; [assumption | reflexivity]).
  assert (T : (0.5 <=? currentNdvi)%float = true -> (0.3 <=? currentNdvi)%float = true)
    by (apply leb_trans; reflexivity).
  unfold Engine.predictYield, Engine.getCropRecommendations.
  rewrite L.
  destruct (0.5 <=? currentNdvi)%float eqn:A.
  - rewrite (T eq_refl).
    destruct (0.6 <=? currentNdvi)%float, (0.4 <=? currentNdvi)%float,
      (0.2 <=? currentNdvi)%float; cbn; split; discriminate.
  - destruct (0.3 <=? currentNdvi)%float;
      destruct (0.6 <=? currentNdvi)%float, (0.4 <=? currentNdvi)%float,
        (0.2 <=? currentNdvi)%float; cbn; split;
        first [discriminate | reflexivity].
Qed.

(** X12.  The recommendation of the yield prediction and the list of
    crops agree on soil improvement exactly when the NDVI is a number:
    for NaN the crops are those of low vegetation while the yield
    prediction says to continue the current practices. *)
Theorem yield_recommendation_matches_crops (currentNdvi : float)
        (historicalNdvi : option float) (season : string) :
  (Engine.recommendation (Engine.predictYield currentNdvi historicalNdvi)
   = "Consider crop rotation or soil improvement"%string
   <-> map Engine.crop (Engine.getCropRecommendations currentNdvi season)
       = ["Green Manure"; "Drought-resistant varieties"]%string)
  <-> is_nan currentNdvi = false.
Proof.
  split.
  - intros [_ H]. destruct (is_nan currentNdvi) eqn:Hn; [|reflexivity].
    apply is_nan_eq in Hn. subst currentNdvi.
    specialize (H eq_refl). discriminate.
  - apply recommendation_matches_crops.
Qed.

(** X13.  [compareWithHistorical] reports the trend "neutral" exactly
    when the historical value is falsy (absent, 0, -0 or NaN), so that
    it never divides by zero; otherwise it echoes both values, and the
    sign it prints agrees with the trend: a "+" for the improving
    trends, none for the declining ones. *)
Theorem comparison_trend (currentNdvi : float) (historicalNdvi : option float) :
  let c := Engine.compareWithHistorical currentNdvi historicalNdvi in
  (Engine.trend c = "neutral"%string <-> Engine.falsy historicalNdvi = true)
  /\ (Engine.falsy historicalNdvi = true ->
      Engine.change c = [JS.Text "No historical data available"]
      /\ Engine.percentageChange c = inl 0%float)
  /\ (Engine.falsy historicalNdvi = false ->
      exists h : float,
        historicalNdvi = Some h /\ (h =? 0)%float = false /\ is_nan h = false
        /\ Engine.currentValue c = Some currentNdvi
        /\ Engine.historicalValue c = Some h
        /\ Engine.percentageChange c
           = inr (JS.toFixed ((currentNdvi - h) / h * 100)%float 1)
        /\ exists sign : string,
            Engine.change c
            = [JS.Text sign; JS.toFixed ((currentNdvi - h) / h * 100)%float 1; JS.Text "%"]
            /\ (Engine.trend c = "improving"%string
                \/ Engine.trend c = "slightly_improving"%string -> sign = "+"%string)
            /\ (Engine.trend c = "declining"%string
                \/ Engine.trend c = "critical_decline"%string -> sign = ""%string)).
Proof.
  cbv zeta. unfold Engine.compareWithHistorical.
  destruct (Engine.falsy historicalNdvi) eqn:F.
  - cbn. split; [split; reflexivity|]. split; [split; reflexivity|discriminate].
  - destruct historicalNdvi as [h|]; [|discriminate].
    cbn [JS.ToNumber].
    set (pc := ((currentNdvi - h) / h * 100)%float).
    assert (P15 : (15 <? pc)%float = true -> (0 <? pc)%float = true)
      by (apply ltb_trans; reflexivity).
    assert (P5 : (5 <? pc)%float = true -> (0 <? pc)%float = true)
      by (apply ltb_trans; reflexivity).
    assert (M5 : (0 <? pc)%float = true -> (-5 <? pc)%float = true)
      by (apply ltb_trans; reflexivity).
    assert (Rest :
      exists h0 : float,
        Some h = Some h0 /\ (h0 =? 0)%float = false /\ is_nan h0 = false).
    { exists h. unfold Engine.falsy in F. apply orb_false_iff in F.
      destruct F. repeat split; assumption. }
    destruct Rest as (h0 & Eh & Z0 & N0). injection Eh as <-.
    destruct (15 <? pc)%float eqn:A.
    { rewrite (P15 eq_refl).
      cbn. split; [split; discriminate|]. split; [discriminate|]. intros _.
      exists h. repeat split; try assumption.
      exists "+"%string. repeat split.
      intros [H|H]; discriminate. }
    destruct (5 <? pc)%float eqn:B.
    { rewrite (P5 eq_refl).
      cbn. split; [split; discriminate|]. split; [discriminate|]. intros _.
      exists h. repeat split; try assumption.
      exists "+"%string. repeat split.
      intros [H|H]; discriminate. }
    destruct (-5 <? pc)%float eqn:C.
    { cbn. split; [split; discriminate|]. split; [discriminate|]. intros _.
      exists h. repeat split; try assumption.
      eexists. split; [reflexivity|].
      split; intros [H|H]; discriminate. }
    assert (Z : (0 <? pc)%float = false).
    { destruct (0 <? pc)%float eqn:Z; [|reflexivity].
      discriminate (M5 eq_refl). }
    rewrite Z.
    destruct (-15 <? pc)%float eqn:D.
    { cbn. split; [split; discriminate|]. split; [discriminate|]. intros _.
      exists h. repeat split; try assumption.
      exists ""%string. repeat split.
      intros [H|H]; discriminate. }
    cbn. split; [split; discriminate|]. split; [discriminate|]. intros _.
    exists h. repeat split; try assumption.
    exists ""%string. repeat split.
    intros [H|H]; discriminate.
Qed.

(** ** The suggestion controller *)

Lemma neutral_iff_falsy (currentNdvi : float) (historicalNdvi : option float) :
  Engine.trend (Engine.compareWithHistorical currentNdvi historicalNdvi)
  = "neutral"%string
  <-> Engine.falsy historicalNdvi = true.
Proof.
  unfold Engine.compareWithHistorical.
  destruct (Engine.falsy historicalNdvi); [split; reflexivity|].
  repeat match goal with
         | |- context [if ?b then _ else _] => destruct b
         end; cbn; split; discriminate.
Qed.

(** A missing coordinate parses to NaN and does not validate. *)
Lemma validateCoordinates_nan (x : float) :
  Utils.validateCoordinates (Value.Number nan) (Value.Number x) = false
  /\ Utils.validateCoordinates (Value.Number x) (Value.Number nan) = false.
Proof.
  unfold Utils.validateCoordinates. split; [reflexivity|].
  destruct (-90 <=? x)%float, (x <=? 90)%float; reflexivity.
Qed.

(** X14.  [getCropSuggestions] answers 400 exactly when the coordinates
    do not validate (a missing one never does) or, with valid
    coordinates, when [currentNdvi] is missing, empty or parses to NaN.
    In a 200 answer the location is finite, the NDVI the engine worked
    on is a number, so that the yield recommendation and the crops
    agree, and the historical comparison is "neutral" exactly when
    [historicalNdvi] is missing, empty or parses to 0 or NaN. *)
Theorem getCropSuggestions_gate (rt : Runtime) (query : Suggestion.Query) :
  let lat := Value.parseFloat rt (Suggestion.latitude query) in
  let lon := Value.parseFloat rt (Suggestion.longitude query) in
  let cur := Value.parseFloat rt (Suggestion.currentNdvi query) in
  let hist := Value.parseFloat rt (Suggestion.historicalNdvi query) in
  let valid := Utils.validateCoordinates (Value.Number lat) (Value.Number lon) in
  (Suggestion.getCropSuggestions rt query
   = Suggestion.Status400 "Invalid coordinates provided"
   <-> valid = false)
  /\ (Suggestion.latitude query = None \/ Suggestion.longitude query = None ->
      valid = false)
  /\ (Suggestion.getCropSuggestions rt query
      = Suggestion.Status400 "Current NDVI value is required and must be a number"
      <-> valid = true
          /\ (Value.truthy (Suggestion.currentNdvi query) = false \/ is_nan cur = true))
  /\ (forall body,
        Suggestion.getCropSuggestions rt query = Suggestion.Status200 body ->
        let s := Suggestion.suggestions body in
        is_finite lat = true /\ is_finite lon = true
        /\ Suggestion.location (Suggestion.metadata body)
           = {| Engine.latitude := lat; Engine.longitude := lon |}
        /\ is_nan cur = false
        /\ Engine.ndviValue (Engine.vegetationHealth s) = cur
        /\ (Engine.recommendation (Engine.yieldPrediction s)
            = "Consider crop rotation or soil improvement"%string
            <-> map Engine.crop (Engine.cropRecommendations s)
                = ["Green Manure"; "Drought-resistant varieties"]%string)
        /\ (Engine.trend (Engine.historicalComparison s) = "neutral"%string
            <-> Value.truthy (Suggestion.historicalNdvi query) = false
                \/ (hist =? 0)%float = true \/ is_nan hist = true)).
Proof.
  intros lat lon cur hist valid.
  unfold Suggestion.getCropSuggestions. fold lat lon cur hist valid.
  split; [|split; [|split]].
  - destruct valid; cbn [negb]; [|split; reflexivity].
    destruct (negb (Value.truthy (Suggestion.currentNdvi query)) || is_nan cur);
      split; discriminate.
  - subst valid lat lon.
    intros [E|E]; rewrite E; cbn [Value.parseFloat]; apply validateCoordinates_nan.
  - destruct valid; cbn [negb].
    + destruct (Value.truthy (Suggestion.currentNdvi query)), (is_nan cur); cbn;
        split; try discriminate; try (intros [_ [H|H]]; discriminate);
        intros _; split; auto.
    + split; [discriminate | intros [H _]; discriminate].
  - intros body.
    destruct valid eqn:Hvalid; cbn [negb]; [|discriminate].
    destruct (Value.truthy (Suggestion.currentNdvi query)); cbn [negb orb];
      [|discriminate].
    destruct (is_nan cur) eqn:Hnan; [discriminate|].
    intros H. injection H as <-. cbv zeta.
    cbn [Suggestion.suggestions Suggestion.metadata Suggestion.location
         Engine.generateCropSuggestions Engine.vegetationHealth
         Engine.yieldPrediction Engine.cropRecommendations Engine.historicalComparison].
    destruct (validateCoordinates_finite _ _ Hvalid)
      as (lat' & lon' & Hlat & Hlon & Hf1 & Hf2 & _).
    injection Hlat as <-. injection Hlon as <-.
    split; [exact Hf1|]. split; [exact Hf2|]. split; [reflexivity|].
    split; [reflexivity|].
    split; [unfold Engine.analyzeVegetationHealth;
            repeat match goal with
                   | |- context [if ?b then _ else _] => destruct b
                   end; reflexivity|].
    split; [now apply recommendation_matches_crops|].
    rewrite neutral_iff_falsy.
    destruct (Value.truthy (Suggestion.historicalNdvi query)); cbn [Engine.falsy].
    + rewrite orb_true_iff. split; [intros H; right; exact H|].
      intros [H|H]; [discriminate | exact H].
    + split; [intros _; left; reflexivity | reflexivity].
Qed.

Lemma getCropSuggestions_gate_witness :
  let query := {| Suggestion.latitude := Some "28.5"%string;
                  Suggestion.longitude := Some "77.25"%string;
                  Suggestion.currentNdvi := Some "0.625"%string;
                  Suggestion.historicalNdvi := Some "0"%string;
                  Suggestion.season := None;
                  Suggestion.timeRange := None |} in
  exists body,
    Suggestion.getCropSuggestions sample_runtime query = Suggestion.Status200 body
    /\ is_nan (Engine.ndviValue (Engine.vegetationHealth (Suggestion.suggestions body)))
       = false
    /\ Engine.trend (Engine.historicalComparison (Suggestion.suggestions body))
       = "neutral"%string.
Proof.
  intros query.
  destruct (Suggestion.getCropSuggestions sample_runtime query) as [body|error] eqn:E;
    [|vm_compute in E; discriminate].
  exists body. split; [reflexivity|].
  destruct (proj2 (proj2 (proj2 (getCropSuggestions_gate sample_runtime query))) body E)
    as (_ & _ & _ & Hnan & Hval & _ & Htrend).
  split.
  - rewrite Hval. exact Hnan.
  - apply Htrend. right. left. reflexivity.
Defined.

(** ** The satellite service *)

Lemma satellite_reduce_loop (redBand nirBand : list float) :
  Satellite.reduce redBand nirBand
  = Service.loop redBand nirBand
      (Nat.min (List.length redBand) (List.length nirBand)).
Proof.
  unfold Satellite.reduce, Service.loop, JS.Math_min, JS.length.
  replace (Z.to_nat (Z.min (Z.of_nat (List.length redBand))
                           (Z.of_nat (List.length nirBand))))
    with (Nat.min (List.length redBand) (List.length nirBand)) by lia.
  reflexivity.
Qed.

(** X15.  The satellite reducer stops at the end of the shorter band,
    with no cap: it processes [min(len(red), len(nir))] pixels, every
    one of them inside both bands, and what it computes is what the
    service's reducer computes on the two bands cut to that length, as
    long as this is within the service's cap; on a red band that is not
    longer than the NIR band nor than the cap the two agree outright.
    The pixel count it reports lies between 0 and the number of pixels
    processed, and the sample has at most 100 values. *)
Theorem location_reduce_truncates (redBand nirBand : list float) :
  let n := Nat.min (List.length redBand) (List.length nirBand) in
  let st := Satellite.reduce redBand nirBand in
  totalPixelsProcessed st = Z.of_nat n
  /\ ndvi st = map (pixel_value redBand nirBand) (seq 0 n)
  /\ count st
     = Z.of_nat (List.length (filter (valid_pixel redBand nirBand) (seq 0 n)))
  /\ (forall i, (i < n)%nat ->
        exists r x, JS.get redBand i = Some r /\ JS.get nirBand i = Some x)
  /\ (Z.of_nat n <= Service.maxPixels ->
      st = Service.reduce (firstn n redBand) (firstn n nirBand))
  /\ (JS.length redBand <= JS.length nirBand ->
      JS.length redBand <= Service.maxPixels ->
      st = Service.reduce redBand nirBand)
  /\ (forall rt : Runtime,
        let result := Satellite.calculateNDVIForLocation rt redBand nirBand in
        0 <= Satellite.pixelCount result <= Z.of_nat n
        /\ List.length (Satellite.sample result) = Nat.min 100 n).
Proof.
  intros n st. subst st. rewrite satellite_reduce_loop. fold n.
  destruct (loop_closed_form redBand nirBand n) as [Hn Hc].
  assert (Hcount : 0 <= count (Service.loop redBand nirBand n) <= Z.of_nat n).
  { rewrite Hc.
    pose proof (filter_length_le (valid_pixel redBand nirBand) (seq 0 n)) as Hle.
    rewrite length_seq in Hle. lia. }
  split; [|split; [exact Hn|split; [exact Hc|split; [|split; [|split]]]]].
  - unfold totalPixelsProcessed, JS.length. now rewrite loop_length.
  - intros i Hi. unfold JS.get.
    destruct (nth_error redBand i) as [r|] eqn:Er;
      [|apply nth_error_None in Er; lia].
    destruct (nth_error nirBand i) as [x|] eqn:Ex;
      [|apply nth_error_None in Ex; lia].
    exists r, x. split; reflexivity.
  - intros Hcap. unfold Service.reduce, Service.bound, JS.Math_min, JS.length.
    rewrite length_firstn.
    replace (Z.to_nat (Z.min (Z.of_nat (Nat.min n (List.length redBand)))
                             Service.maxPixels)) with n by lia.
    apply loop_ext. intros i Hi. unfold JS.get.
    rewrite !nth_error_firstn.
    apply Nat.ltb_lt in Hi. rewrite Hi. split; reflexivity.
  - intros Hle Hcap. unfold Service.reduce, Service.bound, JS.Math_min, JS.length in *.
    replace (Z.to_nat (Z.min (Z.of_nat (List.length redBand)) Service.maxPixels))
      with n by lia.
    reflexivity.
  - intros rt result. subst result. unfold Satellite.calculateNDVIForLocation.
    cbn [Satellite.pixelCount Satellite.sample].
    rewrite satellite_reduce_loop. fold n.
    split; [exact Hcount|].
    unfold JS.slice0. rewrite length_firstn, loop_length. reflexivity.
Qed.

(** X16.  The satellite service and the suggestion engine grade the same
    NDVI alike, status and percentage, from 0.1 on; below 0.1, and for
    NaN, the engine says Critical (10) where the satellite service says
    Poor (25). *)
Theorem health_bands_agree (ndvi : float) :
  let e := Engine.analyzeVegetationHealth ndvi in
  let s := Satellite.analyzeVegetationHealth ndvi in
  ((0.1 <=? ndvi)%float = true
   /\ Engine.status e = Satellite.status s
   /\ Engine.percentage e = Satellite.percentage s)
  \/ ((0.1 <=? ndvi)%float = false
      /\ Engine.status e = "Critical"%string /\ Engine.percentage e = 10
      /\ Satellite.status s = "Poor"%string /\ Satellite.percentage s = 25).
Proof.
  cbv zeta.
  assert (T : forall c, (0.1 <=? c)%float = true -> (c <=? ndvi)%float = true ->
                        (0.1 <=? ndvi)%float = true)
    by (intros c; apply leb_trans).
  unfold Engine.analyzeVegetationHealth, Satellite.analyzeVegetationHealth.
  destruct (0.6 <=? ndvi)%float eqn:A;
    [left; rewrite (T 0.6%float eq_refl A); cbn; repeat split|].
  destruct (0.4 <=? ndvi)%float eqn:B;
    [left; rewrite (T 0.4%float eq_refl B); cbn; repeat split|].
  destruct (0.2 <=? ndvi)%float eqn:C;
    [left; rewrite (T 0.2%float eq_refl C); cbn; repeat split|].
  destruct (0.1 <=? ndvi)%float eqn:D; [left | right]; cbn; repeat split.
Qed.

(** ** The soil type *)

(** X17.  [getSoilType] has no answer for most locations whose
    coordinates sum to a negative number: with
    [k = Math.floor((latitude + longitude) * 1000)] it is [undefined]
    exactly when [k] is negative and no multiple of 5, because the
    remainder is then negative; for [k >= 0] it is one of the five
    soil types, and for a multiple of 5 the first one. *)
Theorem soil_type_undefined_below_zero (latitude longitude : float) (k : Z) :
  Area.Math_floor ((latitude + longitude) * 1000) = Some k ->
  (Area.getSoilType latitude longitude = None <-> k < 0 /\ Z.rem k 5 <> 0)
  /\ (0 <= k ->
      exists name, Area.getSoilType latitude longitude = Some name
                   /\ In name Area.soilTypes)
  /\ (Z.rem k 5 = 0 -> Area.getSoilType latitude longitude = Some "Alluvial"%string).
Proof.
  intros Hk. unfold Area.getSoilType. rewrite Hk.
  change (Z.of_nat (List.length Area.soilTypes)) with 5. cbv zeta.
  assert (Hneg : k <= 0 -> Z.rem k 5 <= 0) by (apply Z.rem_nonpos; lia).
  assert (Hpos : 0 <= k -> 0 <= Z.rem k 5 < 5) by (intros; apply Z.rem_bound_pos; lia).
  assert (Habs : -5 < Z.rem k 5 < 5).
  { destruct (Z.le_gt_cases 0 k) as [H|H]; [specialize (Hpos H); lia|].
    pose proof (Z.rem_opp_l k 5 ltac:(lia)) as Ho.
    pose proof (Z.rem_bound_pos (- k) 5 ltac:(lia) ltac:(lia)). lia. }
  destruct (Z.rem k 5 <? 0) eqn:Hr.
  - apply Z.ltb_lt in Hr.
    split; [split; [intros _|reflexivity]|split]; lia.
  - apply Z.ltb_ge in Hr.
    assert (Hcase : Z.rem k 5 = 0 \/ Z.rem k 5 = 1 \/ Z.rem k 5 = 2
                    \/ Z.rem k 5 = 3 \/ Z.rem k 5 = 4) by lia.
    split; [|split].
    + destruct Hcase as [E|[E|[E|[E|E]]]]; rewrite E; cbn;
        (split; [discriminate|]); intros [Hlt Hne];
        first [congruence | (assert (Z.rem k 5 <= 0) by (apply Hneg; lia); lia)].
    + intros _.
      destruct Hcase as [E|[E|[E|[E|E]]]]; rewrite E; cbn;
        eexists; (split; [reflexivity|]); cbn; tauto.
    + intros E. rewrite E. reflexivity.
Qed.

Lemma soil_type_undefined_below_zero_witness :
  Area.getSoilType (-10) 5.499 = None
  /\ Area.getSoilType (-10) 5.5 = Some "Alluvial"%string.
Proof.
  split.
  - apply (proj1 (soil_type_undefined_below_zero (-10) 5.499 (-4501) eq_refl)).
    split; [lia | discriminate].
  - apply (proj2 (proj2 (soil_type_undefined_below_zero (-10) 5.5 (-4500) eq_refl))).
    reflexivity.
Defined.

